(** * Crop-box geometry and gesture state machine of picture-cut

    Shallow embedding of [src/composables/useCropBoxDesktop.ts], of the
    Pinia store action [updateCropBox] and of the crop-box resets performed
    after an upload ([handleFileUpload]) and after a crop
    ([setCropBoxToFullImage]).

    JavaScript numbers are modelled by the type [number]: the value NaN,
    the two infinities and the finite values.  Finite values are exact
    canonical rationals ([Qc]); the rounding of IEEE-754 doubles and the
    sign of zero are outside the model.  Comparisons, [Math.max],
    [Math.min] and [Math.floor] follow ECMAScript on NaN and infinities. *)

From Stdlib Require Import QArith Qcanon Qround ZArith Bool List String Lia Lqa.
Import ListNotations.

Local Open Scope Qc_scope.

(** ** JavaScript numbers *)

Module JS.

Inductive number : Type :=
| NaN
| NegInf
| Fin (q : Qc)
| PosInf.

Definition of_Z (z : Z) : number := Fin (Q2Qc (inject_Z z)).
Definition of_Q (q : Q) : number := Fin (Q2Qc q).

Definition Qc_leb (a b : Qc) : bool := Qle_bool a b.
Definition Qc_ltb (a b : Qc) : bool := negb (Qle_bool b a).
Definition Qc_eqb (a b : Qc) : bool := Qeq_bool a b.

(** [a < b], [a <= b], [a > b], [a >= b]: false as soon as an operand is NaN. *)
Definition ltb (a b : number) : bool :=
  match a, b with
  | NaN, _ | _, NaN => false
  | NegInf, NegInf => false
  | NegInf, _ => true
  | _, NegInf => false
  | PosInf, _ => false
  | Fin _, PosInf => true
  | Fin p, Fin q => Qc_ltb p q
  end.

Definition leb (a b : number) : bool :=
  match a, b with
  | NaN, _ | _, NaN => false
  | NegInf, _ => true
  | _, NegInf => false
  | _, PosInf => true
  | PosInf, _ => false
  | Fin p, Fin q => Qc_leb p q
  end.

Definition gtb (a b : number) : bool := ltb b a.
Definition geb (a b : number) : bool := leb b a.

Definition isNaN (a : number) : bool :=
  match a with NaN => true | _ => false end.

Definition isFinite (a : number) : bool :=
  match a with Fin _ => true | _ => false end.

Definition neg (a : number) : number :=
  match a with
  | NaN => NaN
  | NegInf => PosInf
  | PosInf => NegInf
  | Fin q => Fin (- q)
  end.

Definition add (a b : number) : number :=
  match a, b with
  | NaN, _ | _, NaN => NaN
  | PosInf, NegInf | NegInf, PosInf => NaN
  | PosInf, _ | _, PosInf => PosInf
  | NegInf, _ | _, NegInf => NegInf
  | Fin p, Fin q => Fin (p + q)
  end.

Definition sub (a b : number) : number := add a (neg b).

(** Sign of a number, as its comparison with zero ([Eq] for zero and NaN). *)
Definition sgn (a : number) : comparison :=
  match a with
  | NaN => Eq
  | NegInf => Lt
  | PosInf => Gt
  | Fin q => (q ?= 0)%Qc
  end.

Definition mul_sgn (s t : comparison) : comparison :=
  match s, t with
  | Eq, _ | _, Eq => Eq
  | Lt, Lt | Gt, Gt => Gt
  | Lt, Gt | Gt, Lt => Lt
  end.

(** The infinity of a given sign; the product of zero and an infinity is NaN. *)
Definition inf_of_sgn (s : comparison) : number :=
  match s with
  | Eq => NaN
  | Lt => NegInf
  | Gt => PosInf
  end.

Definition mul (a b : number) : number :=
  match a, b with
  | NaN, _ | _, NaN => NaN
  | Fin p, Fin q => Fin (p * q)
  | _, _ => inf_of_sgn (mul_sgn (sgn a) (sgn b))
  end.

(** Division.  A zero divisor is taken as +0: a non-zero finite dividend
    gives the infinity of its sign, 0 / 0 is NaN. *)
Definition div (a b : number) : number :=
  match a, b with
  | NaN, _ | _, NaN => NaN
  | Fin p, Fin q =>
      if Qc_eqb q 0 then inf_of_sgn (sgn a) else Fin (p / q)
  | Fin _, _ => Fin 0
  | _, Fin q => inf_of_sgn (mul_sgn (sgn a) (if Qc_ltb q 0 then Lt else Gt))
  | _, _ => NaN
  end.

End JS.

(** ** The [Math] object *)

Module Math.
Import JS.

(** [Math.max(a, b)] and [Math.min(a, b)]: NaN as soon as an argument is NaN. *)
Definition max (a b : number) : number :=
  match a, b with
  | NaN, _ | _, NaN => NaN
  | _, _ => if ltb a b then b else a
  end.

Definition min (a b : number) : number :=
  match a, b with
  | NaN, _ | _, NaN => NaN
  | _, _ => if ltb b a then b else a
  end.

Definition floor (a : number) : number :=
  match a with
  | Fin q => of_Z (Qfloor q)
  | _ => a
  end.

End Math.

Declare Scope js_scope.
Delimit Scope js_scope with js.
Bind Scope js_scope with JS.number.
Infix "+" := JS.add : js_scope.
Infix "-" := JS.sub : js_scope.
Infix "*" := JS.mul : js_scope.
Infix "/" := JS.div : js_scope.
Infix "<?" := JS.ltb (at level 70) : js_scope.
Infix "<=?" := JS.leb (at level 70) : js_scope.
Infix ">?" := JS.gtb (at level 70) : js_scope.
Infix ">=?" := JS.geb (at level 70) : js_scope.
Abbreviation num := JS.of_Z.

(** ** The store ([stores/index.ts]) *)

Record CropBox : Type := mkCropBox {
  x : JS.number;       (* left edge of the crop box *)
  y : JS.number;       (* top edge of the crop box *)
  width : JS.number;
  height : JS.number
}.

(** [Partial<CropBox>]: every field may be absent. *)
Record PartialCropBox : Type := mkPartial {
  x_opt : option JS.number;
  y_opt : option JS.number;
  width_opt : option JS.number;
  height_opt : option JS.number
}.

(** An object literal with the four fields, passed where a partial box is expected. *)
Definition allFields (b : CropBox) : PartialCropBox :=
  mkPartial (Some (x b)) (Some (y b)) (Some (width b)) (Some (height b)).

(** The fields of [ImageData] read by the crop-box code. *)
Record ImageData : Type := mkImageData {
  url : option string;
  imageWidth : JS.number;
  imageHeight : JS.number
}.

Record PicCutStore : Type := mkStore {
  cropBox : CropBox;
  image : ImageData
}.

(** Object spread of one field: the later object wins when it has the key. *)
Definition spread (cur : JS.number) (upd : option JS.number) : JS.number :=
  match upd with
  | Some v => v
  | None => cur
  end.

(** [cropBox.value = { ...cropBox.value, ...box }] *)
Definition updateCropBox (box : PartialCropBox) (s : PicCutStore) : PicCutStore :=
  mkStore
    (mkCropBox (spread (x (cropBox s)) (x_opt box))
               (spread (y (cropBox s)) (y_opt box))
               (spread (width (cropBox s)) (width_opt box))
               (spread (height (cropBox s)) (height_opt box)))
    (image s).

(** [image.value.url !== null && image.value.url !== ''] *)
Definition hasImage (s : PicCutStore) : bool :=
  match url (image s) with
  | Some u => negb (String.eqb u EmptyString)
  | None => false
  end.

(** The store as [defineStore] creates it. *)
Definition initialStore : PicCutStore :=
  mkStore (mkCropBox (num 50) (num 50) (num 300) (num 300))
          (mkImageData None (num 0) (num 0)).

(** ** The document, as far as the crop box reads it *)

Module DOMRect.
Record t : Type := mk {
  left : JS.number;
  top : JS.number;
  width : JS.number;
  height : JS.number
}.
End DOMRect.

(** [window.innerWidth] and the bounding rectangles of the two preview
    containers; [None] when [querySelector] finds no element. *)
Record Document : Type := mkDocument {
  innerWidth : JS.number;
  previewContainerDesktop : option DOMRect.t;
  previewContainerMobile : option DOMRect.t
}.

(** Pointer events.  [target] is the class list of the element hit, [None]
    for a null target.  A touch event carries the list of its touches. *)
Inductive UIEvent : Type :=
| MouseEvent (target : option (list string)) (clientX clientY : JS.number)
| TouchEvent (target : option (list string)) (touches : list (JS.number * JS.number)).

Definition target (e : UIEvent) : option (list string) :=
  match e with
  | MouseEvent t _ _ => t
  | TouchEvent t _ => t
  end.

(** ['touches' in event ? event.touches[0].clientX : event.clientX], and the
    same for [clientY]; reading [touches[0]] of an empty list throws. *)
Definition clientXY (e : UIEvent) : option (JS.number * JS.number) :=
  match e with
  | MouseEvent _ cx cy => Some (cx, cy)
  | TouchEvent _ ts => hd_error ts
  end.

Definition classList_contains (classes : list string) (c : string) : bool :=
  existsb (String.eqb c) classes.

(** ** Fitting the image into the square container *)

Module Display.
Import JS.
Local Open Scope js_scope.

(** The letterbox computation.  [adjustCropBoxToImage], [handleFileUpload]
    and [setCropBoxToFullImage] each write out the same two branches. *)
Record Mapping : Type := mkMapping {
  imageDisplayWidth : number;
  imageDisplayHeight : number;
  offsetX : number;
  offsetY : number
}.

Definition mapping (containerSize imgWidth imgHeight : number) : Mapping :=
  let imageAspectRatio := imgWidth / imgHeight in
  let containerAspectRatio := num 1 in
  if imageAspectRatio >? containerAspectRatio then
    let imageDisplayWidth := containerSize in
    let imageDisplayHeight := containerSize / imageAspectRatio in
    mkMapping imageDisplayWidth imageDisplayHeight
              (num 0) ((containerSize - imageDisplayHeight) / num 2)
  else
    let imageDisplayHeight := containerSize in
    let imageDisplayWidth := containerSize * imageAspectRatio in
    mkMapping imageDisplayWidth imageDisplayHeight
              ((containerSize - imageDisplayWidth) / num 2) (num 0).

End Display.

(** ** The composable [useCropBoxDesktop] *)

Module CropBoxDesktop.
Import JS.
Local Open Scope string_scope.
Local Open Scope js_scope.

Record Point : Type := mkPoint { px : number; py : number }.

(** The refs of the composable together with the store it writes to, the
    listeners it has registered on the document and the animation-frame
    callbacks it has requested.  Every such callback constrains the box it
    captured and commits the result, so a callback is recorded as that box. *)
Record State : Type := mkState {
  store : PicCutStore;
  isDragging : bool;
  isResizing : bool;
  dragStartPos : Point;
  resizeHandle : string;
  initialCropBox : CropBox;
  dragListeners : bool;
  resizeListeners : bool;
  frames : list CropBox
}.

Definition initialState (s : PicCutStore) : State :=
  mkState s false false (mkPoint (num 0) (num 0)) ""
          (mkCropBox (num 0) (num 0) (num 0) (num 0)) false false [].

Definition set_store (s : PicCutStore) (st : State) : State :=
  mkState s (isDragging st) (isResizing st) (dragStartPos st) (resizeHandle st)
          (initialCropBox st) (dragListeners st) (resizeListeners st) (frames st).

Definition requestAnimationFrame (b : CropBox) (st : State) : State :=
  mkState (store st) (isDragging st) (isResizing st) (dragStartPos st)
          (resizeHandle st) (initialCropBox st) (dragListeners st)
          (resizeListeners st) (frames st ++ [b]).

(** How a handler ends: normally, or by an uncaught [TypeError] that leaves
    the state as it was when the error was thrown. *)
Inductive Completion : Type :=
| Normal (st : State)
| Threw (st : State).

Definition final (c : Completion) : State :=
  match c with
  | Normal st => st
  | Threw st => st
  end.

Definition minSize : number := num 50.

Definition getContainerSize (doc : Document) : number :=
  match previewContainerDesktop doc with
  | None => num 400
  | Some rect => Math.min (DOMRect.width rect) (DOMRect.height rect)
  end.

Definition constrainCropBox (doc : Document) (cropBox : CropBox) : CropBox :=
  let containerSize := getContainerSize doc in
  let constrainedWidth := Math.max minSize (Math.min containerSize (width cropBox)) in
  let constrainedHeight := Math.max minSize (Math.min containerSize (height cropBox)) in
  let maxX := Math.max (num 0) (containerSize - constrainedWidth) in
  let maxY := Math.max (num 0) (containerSize - constrainedHeight) in
  let constrainedX := Math.max (num 0) (Math.min maxX (x cropBox)) in
  let constrainedY := Math.max (num 0) (Math.min maxY (y cropBox)) in
  mkCropBox constrainedX constrainedY constrainedWidth constrainedHeight.

(** The default box of the self-healing guard, written out in both
    [startDrag] and [startResize]. *)
Definition resetBox (doc : Document) : CropBox :=
  let containerSize := getContainerSize doc in
  let defaultSize := Math.max minSize (Math.floor (containerSize * of_Q (3 # 10))) in
  let defaultOffset := Math.max (num 0) (Math.floor ((containerSize - defaultSize) / num 2)) in
  mkCropBox defaultOffset defaultOffset defaultSize defaultSize.

Definition isHandle (classes : list string) : bool :=
  classList_contains classes "crop-handle"
  || classList_contains classes "crop-handle-desktop"
  || classList_contains classes "crop-handle-mobile".

Definition startDrag (doc : Document) (event : UIEvent) (st : State) : Completion :=
  if match target event with Some classes => isHandle classes | None => false end
  then Normal st
  else if (width (cropBox (store st)) <=? num 0) || (height (cropBox (store st)) <=? num 0)
  then Normal (set_store (updateCropBox (allFields (resetBox doc)) (store st)) st)
  else
    let st1 := mkState (store st) true (isResizing st) (dragStartPos st)
                       (resizeHandle st) (initialCropBox st) (dragListeners st)
                       (resizeListeners st) (frames st) in
    match clientXY event with
    | None => Threw st1
    | Some (clientX, clientY) =>
        let pos :=
          match previewContainerDesktop doc with
          | Some rect =>
              mkPoint (clientX - DOMRect.left rect - x (cropBox (store st1)))
                      (clientY - DOMRect.top rect - y (cropBox (store st1)))
          | None =>
              mkPoint (clientX - x (cropBox (store st1)))
                      (clientY - y (cropBox (store st1)))
          end in
        Normal (mkState (store st1) (isDragging st1) (isResizing st1) pos
                        (resizeHandle st1) (initialCropBox st1) true
                        (resizeListeners st1) (frames st1))
    end.

Definition handleDrag (doc : Document) (event : UIEvent) (st : State) : Completion :=
  if negb (isDragging st) then Normal st
  else
    match clientXY event with
    | None => Threw st
    | Some (clientX, clientY) =>
        match previewContainerDesktop doc with
        | Some rect =>
            let newCropBox :=
              mkCropBox (clientX - DOMRect.left rect - px (dragStartPos st))
                        (clientY - DOMRect.top rect - py (dragStartPos st))
                        (width (cropBox (store st)))
                        (height (cropBox (store st))) in
            Normal (requestAnimationFrame newCropBox st)
        | None => Normal st
        end
    end.

Definition stopDrag (st : State) : State :=
  mkState (store st) false (isResizing st) (dragStartPos st) (resizeHandle st)
          (initialCropBox st) false (resizeListeners st) (frames st).

Definition startResize (doc : Document) (event : UIEvent) (handle : string)
    (st : State) : Completion :=
  let st0 :=
    if (width (cropBox (store st)) <=? num 0) || (height (cropBox (store st)) <=? num 0)
    then set_store (updateCropBox (allFields (resetBox doc)) (store st)) st
    else st in
  let st1 := mkState (store st0) (isDragging st0) true (dragStartPos st0)
                     handle (cropBox (store st0)) (dragListeners st0)
                     (resizeListeners st0) (frames st0) in
  match clientXY event with
  | None => Threw st1
  | Some (clientX, clientY) =>
      let pos :=
        match previewContainerDesktop doc with
        | Some rect => mkPoint (clientX - DOMRect.left rect) (clientY - DOMRect.top rect)
        | None => mkPoint clientX clientY
        end in
      Normal (mkState (store st1) (isDragging st1) (isResizing st1) pos
                      (resizeHandle st1) (initialCropBox st1) (dragListeners st1)
                      true (frames st1))
  end.

Definition set_x (v : number) (b : CropBox) := mkCropBox v (y b) (width b) (height b).
Definition set_y (v : number) (b : CropBox) := mkCropBox (x b) v (width b) (height b).
Definition set_width (v : number) (b : CropBox) := mkCropBox (x b) (y b) v (height b).
Definition set_height (v : number) (b : CropBox) := mkCropBox (x b) (y b) (width b) v.

(** The [switch] on the handle and the two minimum-size tests of [handleResize]. *)
Definition resizedBox (handle : string) (deltaX deltaY : number)
    (initial : CropBox) : CropBox :=
  let newCropBox := initial in
  let newCropBox :=
    if String.eqb handle "nw" then
      let b := set_x (x newCropBox + deltaX) newCropBox in
      let b := set_y (y b + deltaY) b in
      let b := set_width (width b - deltaX) b in
      set_height (height b - deltaY) b
    else if String.eqb handle "ne" then
      let b := set_y (y newCropBox + deltaY) newCropBox in
      let b := set_width (width b + deltaX) b in
      set_height (height b - deltaY) b
    else if String.eqb handle "sw" then
      let b := set_x (x newCropBox + deltaX) newCropBox in
      let b := set_width (width b - deltaX) b in
      set_height (height b + deltaY) b
    else if String.eqb handle "se" then
      let b := set_width (width newCropBox + deltaX) newCropBox in
      set_height (height b + deltaY) b
    else newCropBox in
  let newCropBox :=
    if width newCropBox <? minSize then set_width minSize newCropBox else newCropBox in
  let newCropBox :=
    if height newCropBox <? minSize then set_height minSize newCropBox else newCropBox in
  newCropBox.

Definition handleResize (doc : Document) (event : UIEvent) (st : State) : Completion :=
  if negb (isResizing st) then Normal st
  else
    match clientXY event with
    | None => Threw st
    | Some (clientX, clientY) =>
        let '(deltaX, deltaY) :=
          match previewContainerDesktop doc with
          | Some rect =>
              ((clientX - DOMRect.left rect) - px (dragStartPos st),
               (clientY - DOMRect.top rect) - py (dragStartPos st))
          | None =>
              (clientX - px (dragStartPos st), clientY - py (dragStartPos st))
          end in
        Normal (requestAnimationFrame
                  (resizedBox (resizeHandle st) deltaX deltaY (initialCropBox st)) st)
    end.

Definition stopResize (st : State) : State :=
  mkState (store st) (isDragging st) false (dragStartPos st) ""
          (initialCropBox st) (dragListeners st) false (frames st).

(** The browser runs the oldest requested animation-frame callback:
    [store.updateCropBox(constrainCropBox(newCropBox))], with the container
    measured at that moment. *)
Definition runFrame (doc : Document) (st : State) : State :=
  match frames st with
  | [] => st
  | newCropBox :: rest =>
      mkState (updateCropBox (allFields (constrainCropBox doc newCropBox)) (store st))
              (isDragging st) (isResizing st) (dragStartPos st) (resizeHandle st)
              (initialCropBox st) (dragListeners st) (resizeListeners st) rest
  end.

Definition resetCropBox (doc : Document) (st : State) : State :=
  let containerSize := getContainerSize doc in
  let size := Math.floor (containerSize * of_Q (6 # 10)) in
  let offset := Math.floor ((containerSize - size) / num 2) in
  set_store (updateCropBox (allFields (mkCropBox offset offset size size)) (store st)) st.

Definition adjustCropBoxToImage (doc : Document) (st : State) : State :=
  if negb (hasImage (store st)) then st
  else
    let containerSize := getContainerSize doc in
    let m := Display.mapping containerSize (imageWidth (image (store st)))
                             (imageHeight (image (store st))) in
    let margin := num 2 in
    let cropX := Math.max (num 0) (Display.offsetX m + margin) in
    let cropY := Math.max (num 0) (Display.offsetY m + margin) in
    let cropWidth := Math.max minSize (Display.imageDisplayWidth m - margin * num 2) in
    let cropHeight := Math.max minSize (Display.imageDisplayHeight m - margin * num 2) in
    set_store (updateCropBox (allFields (mkCropBox cropX cropY cropWidth cropHeight))
                             (store st)) st.

End CropBoxDesktop.

(** ** The crop-box reset at the end of an upload ([useImageUpload]) *)

Module ImageUpload.
Import JS.
Local Open Scope js_scope.

Definition getContainerSize (doc : Document) : number :=
  let isMobile := innerWidth doc <? num 768 in
  let previewContainer :=
    if isMobile then previewContainerMobile doc else previewContainerDesktop doc in
  match previewContainer with
  | None => num 400
  | Some rect => Math.min (DOMRect.width rect) (DOMRect.height rect)
  end.

(** [store.setImage({ file, url, width, height })] *)
Definition setImage (u : option string) (w h : number) (s : PicCutStore) : PicCutStore :=
  mkStore (cropBox s) (mkImageData u w h).


End ImageUpload.

(** ** The crop-box reset after a crop (the main component) *)

Module App.
Import JS.
Local Open Scope js_scope.

Section FullImage.

(** The mobile composable is a separate file; only its container
    measurement is used here. *)
Variable getContainerSizeMobile : Document -> number.


End FullImage.

End App.

(** ** The specification's vocabulary

    Definitions written from the words of the specification, to state what
    the handlers above are compared with. *)

Module Spec.
Import JS CropBoxDesktop.
Local Open Scope string_scope.
Local Open Scope js_scope.

(** The pointer-down did not land on a resize handle. *)
Definition onBoxBody (event : UIEvent) : bool :=
  negb match target event with Some classes => isHandle classes | None => false end.

(** The test of the self-healing guard. *)
Definition degenerate (b : CropBox) : bool :=
  (width b <=? num 0) || (height b <=? num 0).

Inductive Handle : Type := nw | ne | sw | se.

Definition handleName (h : Handle) : string :=
  match h with
  | nw => "nw"
  | ne => "ne"
  | sw => "sw"
  | se => "se"
  end.

(** The snapshot moved by the pointer delta, handle by handle. *)
Definition spec_transform (h : Handle) (dx dy : number) (snap : CropBox) : CropBox :=
  match h with
  | nw => mkCropBox (x snap + dx) (y snap + dy) (width snap - dx) (height snap - dy)
  | ne => mkCropBox (x snap) (y snap + dy) (width snap + dx) (height snap - dy)
  | sw => mkCropBox (x snap + dx) (y snap) (width snap - dx) (height snap + dy)
  | se => mkCropBox (x snap) (y snap) (width snap + dx) (height snap + dy)
  end.

(** Width and height floored at MIN_SIZE, x and y untouched. *)
Definition spec_floor_size (b : CropBox) : CropBox :=
  mkCropBox (x b) (y b) (Math.max minSize (width b)) (Math.max minSize (height b)).

Definition spec_candidate (h : Handle) (dx dy : number) (snap : CropBox) : CropBox :=
  spec_floor_size (spec_transform h dx dy snap).

(** The pointer position relative to the container when there is one. *)
Definition pointerPos (doc : Document) (clientX clientY : number) : Point :=
  match previewContainerDesktop doc with
  | Some rect => mkPoint (clientX - DOMRect.left rect) (clientY - DOMRect.top rect)
  | None => mkPoint clientX clientY
  end.

(** The displayed image rectangle shrunk by [margin] on each side. *)
Definition inset (margin : Z) (m : Display.Mapping) : CropBox :=
  mkCropBox (Display.offsetX m + num margin) (Display.offsetY m + num margin)
            (Display.imageDisplayWidth m - num (2 * margin))
            (Display.imageDisplayHeight m - num (2 * margin)).

End Spec.

(** ** Documents and boxes used as concrete inputs *)

(** A desktop window whose preview container is a square of side [side]
    placed at (100, 80). *)
Definition desktopDocument (side : Z) : Document :=
  mkDocument (num 1280)
             (Some (DOMRect.mk (num 100) (num 80) (num side) (num side)))
             None.

Definition box (bx b_y bw bh : Z) : CropBox :=
  mkCropBox (num bx) (num b_y) (num bw) (num bh).

Definition withImage (w h : Z) : CropBoxDesktop.State :=
  CropBoxDesktop.initialState
    (mkStore (box 50 50 300 300) (mkImageData (Some "data:image/png"%string) (num w) (num h))).

(** ** The grid table of the store *)

Module Grid.

Inductive GridSize : Type := g2x2 | g3x3 | g4x4 | g5x5.

Record GridConfig : Type := mkGridConfig {
  rows : Z;
  cols : Z;
  total : Z
}.

Definition gridConfigs (size : GridSize) : GridConfig :=
  match size with
  | g2x2 => mkGridConfig 2 2 4
  | g3x3 => mkGridConfig 3 3 9
  | g4x4 => mkGridConfig 4 4 16
  | g5x5 => mkGridConfig 5 5 25
  end.

End Grid.

(** ** File and image validation of the upload ([useImageUpload]) *)

Module Validation.
Import JS.
Local Open Scope string_scope.
Local Open Scope Z_scope.

(** What [validateFile] reads of a [File]: the MIME type, the size in
    bytes, the name as UTF-16 code units and the content as bytes;
    [readFails] says that the [FileReader] reports an error. *)
Record File : Type := mkFile {
  fileType : string;
  fileSize : Z;
  fileName : list Z;
  fileBytes : list Z;
  readFails : bool
}.

(** The code units of an ASCII string literal. *)
Definition units (s : string) : list Z :=
  map (fun a => Z.of_N (Ascii.N_of_ascii a)) (list_ascii_of_string s).

Definition supportedTypes : list string :=
  ["image/jpeg"; "image/png"; "image/gif"; "image/webp"].

Definition maxFileSize : Z := 5 * 1024 * 1024.

(** The table [fileSignatures], read at a MIME type. *)
Definition fileSignatures (type : string) : option (list Z) :=
  if String.eqb type "image/jpeg" then Some [0xFF; 0xD8; 0xFF]
  else if String.eqb type "image/png" then Some [0x89; 0x50; 0x4E; 0x47]
  else if String.eqb type "image/gif" then Some [0x47; 0x49; 0x46]
  else if String.eqb type "image/webp" then Some [0x52; 0x49; 0x46; 0x46]
  else None.

(** The loop of [checkFileSignature] over the indices of the signature,
    [bytes] being the first 12 bytes of the file; an index past the end of
    [bytes] reads [undefined], which differs from every signature byte. *)
Fixpoint signatureMatches (bytes : list Z) (i : nat) (expected : list Z) : bool :=
  match expected with
  | [] => true
  | e :: rest =>
      match nth_error bytes i with
      | Some b => if Z.eqb b e then signatureMatches bytes (S i) rest else false
      | None => false
      end
  end.

Definition checkFileSignature (file : File) : bool :=
  if readFails file then false
  else
    match fileSignatures (fileType file) with
    | None => false
    | Some expectedSignature =>
        signatureMatches (firstn 12 (fileBytes file)) 0 expectedSignature
    end.

(** The character class of [dangerousChars]: less-than, greater-than, colon,
    double quote, slash, bar, question mark, asterisk and the control
    characters 0x00 to 0x1f.  The backslash before the bar escapes the bar,
    so the backslash itself is not in the class. *)
Definition dangerousChar (c : Z) : bool :=
  (c =? 60) || (c =? 62) || (c =? 58) || (c =? 34) || (c =? 47)
  || (c =? 124) || (c =? 63) || (c =? 42) || ((0 <=? c) && (c <=? 31)).

Definition dangerousExtensionList : list string :=
  ["exe"; "bat"; "cmd"; "com"; "pif"; "scr"; "vbs"; "js"; "jar"; "php"; "asp"; "jsp"].

(** Case folding of the [i] flag on the ASCII letters. *)
Definition foldCase (c : Z) : Z :=
  if (65 <=? c) && (c <=? 90) then c + 32 else c.

Fixpoint unitsEqb (a b : list Z) : bool :=
  match a, b with
  | [], [] => true
  | c :: a', d :: b' => Z.eqb c d && unitsEqb a' b'
  | _, _ => false
  end.

(** [name] ends with [suffix]. *)
Definition endsWith (name suffix : list Z) : bool :=
  unitsEqb (skipn (List.length name - List.length suffix)%nat name) suffix.

(** [/\.(exe|bat|...|jsp)$/i.test(name)] *)
Definition dangerousExtension (name : list Z) : bool :=
  existsb (fun ext => endsWith (map foldCase name) (units ("." ++ ext)))
          dangerousExtensionList.

Definition validateFileName (name : list Z) : bool :=
  negb (existsb dangerousChar name) && negb (dangerousExtension name).

(** The messages of [validateFile], in the order of its tests. *)
Inductive ValidationError : Type :=
| UnsupportedFormat
| FileTooLarge
| FileTooSmall
| UnsafeFileName
| SignatureMismatch.

(** [validateFile]: [None] is the [null] of an accepted file. *)
Definition validateFile (file : File) : option ValidationError :=
  if negb (existsb (String.eqb (fileType file)) supportedTypes) then Some UnsupportedFormat
  else if fileSize file >? maxFileSize then Some FileTooLarge
  else if fileSize file <? 100 then Some FileTooSmall
  else if negb (validateFileName (fileName file)) then Some UnsafeFileName
  else if negb (checkFileSignature file) then Some SignatureMismatch
  else None.

Local Open Scope js_scope.

Definition maxImageWidth : number := num 8000.
Definition maxImageHeight : number := num 8000.
Definition minImageWidth : number := num 10.
Definition minImageHeight : number := num 10.

Inductive DimensionError : Type :=
| ImageTooLarge
| ImageTooSmall
| AbnormalAspectRatio.

(** The [onload] handler of [getImageDimensions]: the rejection, or the
    natural width and height it resolves with. *)
Definition getImageDimensions (width height : number)
    : DimensionError + (number * number) :=
  if (width >? maxImageWidth) || (height >? maxImageHeight) then inl ImageTooLarge
  else if (width <? minImageWidth) || (height <? minImageHeight) then inl ImageTooSmall
  else
    let aspectRatio := Math.max width height / Math.min width height in
    if aspectRatio >? num 50 then inl AbnormalAspectRatio
    else inr (width, height).

(** [clearImage], as far as the image of the store goes. *)
Definition clearImage (s : PicCutStore) : PicCutStore :=
  ImageUpload.setImage None (num 0) (num 0) s.

End Validation.

(** ** Coordinates of the image processor ([useImageProcessor]) *)

Module ImageProcessor.
Import JS.
Local Open Scope js_scope.

Record DisplayInfo : Type := mkDisplayInfo {
  containerSize : number;
  displayWidth : number;
  displayHeight : number;
  offsetX : number;
  offsetY : number;
  scaleX : number;
  scaleY : number
}.

Definition getImageDisplayInfo (doc : Document) (s : PicCutStore) : DisplayInfo :=
  let isDesktop := innerWidth doc >=? num 1024 in
  let previewContainer :=
    if isDesktop then previewContainerDesktop doc else previewContainerMobile doc in
  let containerSize :=
    match previewContainer with
    | Some containerRect =>
        Math.min (DOMRect.width containerRect) (DOMRect.height containerRect)
    | None => num 500
    end in
  let m := Display.mapping containerSize (imageWidth (image s)) (imageHeight (image s)) in
  mkDisplayInfo containerSize
                (Display.imageDisplayWidth m) (Display.imageDisplayHeight m)
                (Display.offsetX m) (Display.offsetY m)
                (imageWidth (image s) / Display.imageDisplayWidth m)
                (imageHeight (image s) / Display.imageDisplayHeight m).

(** The conversion of the crop box to source pixels, written out in both
    [cropImageFree] and [createGridPuzzle]. *)
Definition actualCropBox (displayInfo : DisplayInfo) (cropBox : CropBox) : CropBox :=
  let relativeX := x cropBox - offsetX displayInfo in
  let relativeY := y cropBox - offsetY displayInfo in
  let clampedX :=
    Math.max (num 0) (Math.min relativeX (displayWidth displayInfo - width cropBox)) in
  let clampedY :=
    Math.max (num 0) (Math.min relativeY (displayHeight displayInfo - height cropBox)) in
  let clampedWidth :=
    Math.max (num 0) (Math.min (width cropBox) (displayWidth displayInfo - clampedX)) in
  let clampedHeight :=
    Math.max (num 0) (Math.min (height cropBox) (displayHeight displayInfo - clampedY)) in
  mkCropBox (Math.floor (clampedX * scaleX displayInfo))
            (Math.floor (clampedY * scaleY displayInfo))
            (Math.floor (clampedWidth * scaleX displayInfo))
            (Math.floor (clampedHeight * scaleY displayInfo)).

(** The arguments of one [fillRect] call. *)
Record Rect : Type := mkRect {
  rectX : number;
  rectY : number;
  rectWidth : number;
  rectHeight : number
}.

(** The values taken by [i] in [for (let i = 1; i < n; i++)], for the
    integer row and column counts of a grid configuration. *)
Definition loopIndices (n : Z) : list Z :=
  map Z.of_nat (seq 1 (Z.to_nat (n - 1))).

(** The two drawing loops of [createGridPuzzle] on a target canvas of the
    given size: the [fillRect] calls in the order they are made. *)
Definition drawGridLines (gridConfig : Grid.GridConfig) (lineWidth : number)
    (targetWidth targetHeight : number) : list Rect :=
  let cellWidth := targetWidth / num (Grid.cols gridConfig) in
  let cellHeight := targetHeight / num (Grid.rows gridConfig) in
  map (fun i =>
         let centerX := num i * cellWidth in
         let halfWidth := lineWidth / num 2 in
         mkRect (centerX - halfWidth) (num 0) lineWidth targetHeight)
      (loopIndices (Grid.cols gridConfig))
  ++
  map (fun i =>
         let centerY := num i * cellHeight in
         let halfWidth := lineWidth / num 2 in
         mkRect (num 0) (centerY - halfWidth) targetWidth lineWidth)
      (loopIndices (Grid.rows gridConfig)).

End ImageProcessor.

(** ** Histories of the desktop composable *)

Module Machine.
Import CropBoxDesktop.

(** The states the composable goes through from a fresh instance, by
    handlers that complete normally, animation frames and the two resets. *)
Inductive reachable : State -> Prop :=
| reach_initial (s : PicCutStore) :
    reachable (initialState s)
| reach_startDrag doc event st st' :
    reachable st -> startDrag doc event st = Normal st' -> reachable st'
| reach_handleDrag doc event st st' :
    reachable st -> handleDrag doc event st = Normal st' -> reachable st'
| reach_stopDrag st :
    reachable st -> reachable (stopDrag st)
| reach_startResize doc event handle st st' :
    reachable st -> startResize doc event handle st = Normal st' -> reachable st'
| reach_handleResize doc event st st' :
    reachable st -> handleResize doc event st = Normal st' -> reachable st'
| reach_stopResize st :
    reachable st -> reachable (stopResize st)
| reach_runFrame doc st :
    reachable st -> reachable (runFrame doc st)
| reach_resetCropBox doc st :
    reachable st -> reachable (resetCropBox doc st)
| reach_adjustCropBoxToImage doc st :
    reachable st -> reachable (adjustCropBoxToImage doc st).

End Machine.

(** ** Further vocabulary and inputs *)

(** The partial box that has the fields of [later] where it has them and
    those of [earlier] elsewhere. *)
Definition overlay (earlier later : PartialCropBox) : PartialCropBox :=
  let pick (a b : option JS.number) := match b with Some _ => b | None => a end in
  mkPartial (pick (x_opt earlier) (x_opt later))
            (pick (y_opt earlier) (y_opt later))
            (pick (width_opt earlier) (width_opt later))
            (pick (height_opt earlier) (height_opt later)).

(** The document dispatching a pointer-up ([mouseup] or [touchend]) to the
    listeners registered on it: [stopDrag] and [stopResize] run only when a
    gesture start has added them. *)
Definition pointerUp (st : CropBoxDesktop.State) : CropBoxDesktop.State :=
  let st :=
    if CropBoxDesktop.dragListeners st then CropBoxDesktop.stopDrag st else st in
  if CropBoxDesktop.resizeListeners st then CropBoxDesktop.stopResize st else st.

(** The extensions of the image formats the upload supports. *)
Definition imageExtensions : list string :=
  ["png"; "jpg"; "jpeg"; "gif"; "webp"]%string.

(** A full-height band of the line width, and a full-width band of the
    line width as height. *)
Definition verticalBand (lineWidth targetHeight : JS.number) (r : ImageProcessor.Rect) : Prop :=
  ImageProcessor.rectY r = num 0 /\ ImageProcessor.rectWidth r = lineWidth /\ ImageProcessor.rectHeight r = targetHeight.

Definition horizontalBand (lineWidth targetWidth : JS.number) (r : ImageProcessor.Rect) : Prop :=
  ImageProcessor.rectX r = num 0 /\ ImageProcessor.rectWidth r = targetWidth /\ ImageProcessor.rectHeight r = lineWidth.

(** A small PNG file. *)
Definition pngFile : Validation.File :=
  Validation.mkFile "image/png"%string 2048%Z (Validation.units "holiday photo.png"%string)
         [0x89; 0x50; 0x4E; 0x47; 0x0D; 0x0A; 0x1A; 0x0A; 0; 0; 0; 13; 73; 72]%Z
         false.

(** A window between the two breakpoints, with both containers. *)
Definition tabletDocument : Document :=
  mkDocument (num 900)
             (Some (DOMRect.mk (num 0) (num 0) (num 420) (num 420)))
             (Some (DOMRect.mk (num 0) (num 0) (num 300) (num 300))).

(** A store holding an image of the given size. *)
Definition imageStore (w h : Z) : PicCutStore :=
  mkStore (box 100 100 200 100) (mkImageData (Some "blob:image"%string) (num w) (num h)).


(** ** Order and arithmetic facts on canonical rationals *)

Section QcFacts.

Lemma Qc_this_add (a b : Qc) : (this (a + b) == this a + this b)%Q.
Proof. exact (Qred_correct _). Qed.

Lemma Qc_this_opp (a : Qc) : (this (- a) == - this a)%Q.
Proof. exact (Qred_correct _). Qed.

Lemma Qc_this_sub (a b : Qc) : (this (a - b) == this a - this b)%Q.
Proof.
  unfold Qcminus. rewrite Qc_this_add, Qc_this_opp. reflexivity.
Qed.

Lemma Qc_this_mul (a b : Qc) : (this (a * b) == this a * this b)%Q.
Proof. exact (Qred_correct _). Qed.

Lemma Qc_this_inv (a : Qc) : (this (/ a) == / this a)%Q.
Proof. exact (Qred_correct _). Qed.

Lemma Qc_this_div (a b : Qc) : (this (a / b) == this a / this b)%Q.
Proof.
  unfold Qcdiv. rewrite Qc_this_mul, Qc_this_inv. reflexivity.
Qed.

Lemma Qc_this_of_Z (z : Z) : (this (Q2Qc (inject_Z z)) == inject_Z z)%Q.
Proof. exact (Qred_correct _). Qed.

Lemma Qc_div_shrinks (c a : Qc) : 0 < c -> 1 < a -> c / a <= c.
Proof.
  unfold Qclt, Qcle. rewrite Qc_this_div. change (this 0) with 0%Q; change (this 1) with 1%Q.
  intros Hc Ha. apply Qlt_le_weak, Qlt_shift_div_r; [lra | nra].
Qed.

Lemma Qc_mul_shrinks (c a : Qc) : 0 < c -> a <= 1 -> c * a <= c.
Proof.
  unfold Qclt, Qcle. rewrite Qc_this_mul. change (this 0) with 0%Q; change (this 1) with 1%Q.
  intros Hc Ha. nra.
Qed.

Lemma Qc_div_pos (w h : Qc) : 0 < w -> 0 < h -> 0 < w / h.
Proof.
  unfold Qclt. rewrite Qc_this_div. change (this 0) with 0%Q; change (this 1) with 1%Q.
  intros Hw Hh. apply Qlt_shift_div_l; [assumption | lra].
Qed.

Lemma Qc_div_same (h : Qc) : 0 < h -> h / h = 1.
Proof.
  intros Hh. unfold Qcdiv. apply Qcmult_inv_r.
  intros ->. exact (Qlt_irrefl 0 Hh).
Qed.

End QcFacts.

(** ** Comparisons, [Math.max] and [Math.min] *)

Section Comparisons.
Import JS.

Lemma Qc_leb_true (a b : Qc) : Qc_leb a b = true <-> (this a <= this b)%Q.
Proof. apply Qle_bool_iff. Qed.

Lemma Qc_leb_false (a b : Qc) : Qc_leb a b = false <-> (this b < this a)%Q.
Proof.
  unfold Qc_leb. rewrite <- not_true_iff_false, Qle_bool_iff.
  split; [apply Qnot_le_lt | apply Qlt_not_le].
Qed.

Lemma Qc_ltb_true (a b : Qc) : Qc_ltb a b = true <-> (this a < this b)%Q.
Proof.
  unfold Qc_ltb. rewrite negb_true_iff. apply Qc_leb_false.
Qed.

Lemma Qc_ltb_false (a b : Qc) : Qc_ltb a b = false <-> (this b <= this a)%Q.
Proof.
  unfold Qc_ltb. rewrite negb_false_iff. apply Qc_leb_true.
Qed.

Lemma Qc_eqb_true (a b : Qc) : Qc_eqb a b = true <-> (this a == this b)%Q.
Proof. apply Qeq_bool_iff. Qed.

Lemma Qc_eqb_false (a b : Qc) : Qc_eqb a b = false <-> ~ (this a == this b)%Q.
Proof.
  unfold Qc_eqb. rewrite <- not_true_iff_false, Qeq_bool_iff. reflexivity.
Qed.

(** Two finite numbers are equal as soon as their fractions are. *)
Lemma Fin_eq (p q : Qc) : Qeq_bool p q = true -> Fin p = Fin q.
Proof.
  intros E. f_equal. apply Qc_is_canon, Qeq_bool_iff, E.
Qed.

End Comparisons.

(** Evaluates both sides of an equation between concrete values. *)
Ltac js_compute :=
  vm_compute;
  repeat match goal with
  | |- JS.Fin _ = JS.Fin _ => apply Fin_eq; vm_compute; reflexivity
  | |- ?a = ?a => reflexivity
  | |- _ = _ => f_equal
  end.

(** Turns the boolean comparisons of rationals in the context and the goal
    into inequalities on [Q], splitting on the ones still undecided. *)
Ltac qc_props :=
  repeat match goal with
  | H : JS.Qc_leb _ _ = true |- _ => apply Qc_leb_true in H
  | H : JS.Qc_leb _ _ = false |- _ => apply Qc_leb_false in H
  | H : JS.Qc_ltb _ _ = true |- _ => apply Qc_ltb_true in H
  | H : JS.Qc_ltb _ _ = false |- _ => apply Qc_ltb_false in H
  | H : JS.Qc_eqb _ _ = true |- _ => apply Qc_eqb_true in H
  | H : JS.Qc_eqb _ _ = false |- _ => apply Qc_eqb_false in H
  | H : context [JS.Qc_ltb ?a ?b] |- _ => destruct (JS.Qc_ltb a b) eqn:?
  | H : context [JS.Qc_leb ?a ?b] |- _ => destruct (JS.Qc_leb a b) eqn:?
  | |- context [JS.Qc_ltb ?a ?b] => destruct (JS.Qc_ltb a b) eqn:?
  | |- context [JS.Qc_leb ?a ?b] => destruct (JS.Qc_leb a b) eqn:?
  end.

Ltac qc_this :=
  repeat first
    [ rewrite Qc_this_sub in * | rewrite Qc_this_add in * | rewrite Qc_this_opp in *
    | rewrite Qc_this_div in * | rewrite Qc_this_mul in * | rewrite Qc_this_inv in *
    | rewrite Qc_this_of_Z in * ];
  unfold inject_Z in *.

Ltac qc_close :=
  first
    [ reflexivity
    | discriminate
    | congruence
    | exfalso; qc_this; lra
    | f_equal; apply Qc_is_canon; qc_this; lra ].

Ltac js_unfold :=
  cbv [Math.max Math.min JS.ltb JS.leb JS.gtb JS.geb JS.add JS.sub JS.neg
       JS.isNaN JS.isFinite] in *.

Ltac js_cases := js_unfold; qc_props; js_unfold; qc_close.

Section MinMax.
Import JS.

(** Clamping a number into a range is idempotent, whatever the bounds. *)
Lemma clamp_idem (lo hi v : number) :
  Math.max lo (Math.min hi (Math.max lo (Math.min hi v))) = Math.max lo (Math.min hi v).
Proof.
  destruct lo, hi, v; js_cases.
Qed.

(** One axis of [constrainCropBox]: the size is clamped first, then the
    position against what the size leaves free. *)
Lemma constrain_axis (containerSize size pos : number) :
  isFinite containerSize = true ->
  leb CropBoxDesktop.minSize containerSize = true ->
  isNaN size = false ->
  isNaN pos = false ->
  let size' := Math.max CropBoxDesktop.minSize (Math.min containerSize size) in
  let pos' := Math.max (num 0) (Math.min (Math.max (num 0) (sub containerSize size')) pos) in
  geb pos' (num 0) = true
  /\ leb pos' (sub containerSize size') = true
  /\ geb size' CropBoxDesktop.minSize = true
  /\ leb size' containerSize = true.
Proof.
  unfold CropBoxDesktop.minSize, of_Z. intros Hc Hm Hs Hp.
  destruct containerSize; try discriminate Hc.
  destruct size; try discriminate Hs;
    destruct pos; try discriminate Hp; repeat split; js_cases.
Qed.

(** Without NaN on input, and with a finite container, no NaN comes out
    and the size is at least the minimum, whatever the container size. *)
Lemma constrain_axis_no_NaN (containerSize size pos : number) :
  isFinite containerSize = true ->
  isNaN size = false ->
  isNaN pos = false ->
  let size' := Math.max CropBoxDesktop.minSize (Math.min containerSize size) in
  let pos' := Math.max (num 0) (Math.min (Math.max (num 0) (sub containerSize size')) pos) in
  isNaN size' = false
  /\ isNaN pos' = false
  /\ geb size' CropBoxDesktop.minSize = true
  /\ geb size' (num 0) = true.
Proof.
  unfold CropBoxDesktop.minSize, of_Z. intros Hc Hs Hp.
  destruct containerSize; try discriminate Hc.
  destruct size; try discriminate Hs;
    destruct pos; try discriminate Hp; repeat split; js_cases.
Qed.

(** A NaN size is handed back as NaN and turns the position into NaN. *)
Lemma constrain_axis_NaN_size (containerSize pos : number) :
  let size' := Math.max CropBoxDesktop.minSize (Math.min containerSize NaN) in
  let pos' := Math.max (num 0) (Math.min (Math.max (num 0) (sub containerSize size')) pos) in
  size' = NaN /\ pos' = NaN.
Proof.
  destruct containerSize, pos; split; reflexivity.
Qed.

(** A value already inside the range is left alone by the clamp. *)
Lemma clamp_inside (lo hi v : number) :
  leb lo v = true ->
  leb v hi = true ->
  Math.max lo (Math.min hi v) = v.
Proof.
  destruct lo, hi, v; intros; js_cases.
Qed.

(** The minimum-size test of [handleResize] computes [Math.max]. *)
Lemma floor_test_is_max (m v : number) :
  isNaN m = false ->
  (if ltb v m then m else v) = Math.max m v.
Proof.
  destruct m, v; intros; js_cases.
Qed.

(** [Math.max] returns its second argument when that is the larger one. *)
Lemma max_of_le (a b : number) : leb a b = true -> Math.max a b = b.
Proof.
  destruct a, b; intros; js_cases.
Qed.

End MinMax.

(** ** Properties of [constrainCropBox] *)

Module ConstrainFacts.
Import JS CropBoxDesktop.
Local Open Scope js_scope.

(** C1, as amended: for every box without a NaN field and every finite
    container size that is at least MIN_SIZE, the box returned by
    [constrainCropBox] satisfies x >= 0, y >= 0, x <= containerSize - width,
    y <= containerSize - height, MIN_SIZE <= width <= containerSize and
    MIN_SIZE <= height <= containerSize, the two differences being the
    subtractions the code itself performs for its position bounds. *)
Theorem constrainCropBox_containment (doc : Document) (b : CropBox) :
  isFinite (getContainerSize doc) = true ->
  (minSize <=? getContainerSize doc) = true ->
  isNaN (x b) = false ->
  isNaN (y b) = false ->
  isNaN (width b) = false ->
  isNaN (height b) = false ->
  let containerSize := getContainerSize doc in
  let r := constrainCropBox doc b in
  (x r >=? num 0) = true
  /\ (y r >=? num 0) = true
  /\ (x r <=? containerSize - width r) = true
  /\ (y r <=? containerSize - height r) = true
  /\ (width r >=? minSize) = true
  /\ (height r >=? minSize) = true
  /\ (width r <=? containerSize) = true
  /\ (height r <=? containerSize) = true.
Proof.
  intros Hfin Hmin Hx Hy Hw Hh containerSize r.
  destruct (constrain_axis containerSize (width b) (x b) Hfin Hmin Hw Hx)
    as (X0 & XW & W & Wc).
  destruct (constrain_axis containerSize (height b) (y b) Hfin Hmin Hh Hy)
    as (Y0 & YH & H & Hc).
  repeat split; assumption.
Qed.

Lemma constrainCropBox_containment_witness :
  let r := constrainCropBox (desktopDocument 400) (box 390 (-20) 700 10) in
  (x r >=? num 0) = true
  /\ (y r >=? num 0) = true
  /\ (x r <=? num 400 - width r) = true
  /\ (y r <=? num 400 - height r) = true
  /\ (width r >=? minSize) = true
  /\ (height r >=? minSize) = true
  /\ (width r <=? num 400) = true
  /\ (height r <=? num 400) = true.
Proof.
  apply (constrainCropBox_containment (desktopDocument 400) (box 390 (-20) 700 10));
    reflexivity.
Defined.

(** C1, as stated, fails in a container smaller than MIN_SIZE: in a 40 px
    container the box comes back 50 px wide at x = 0, so x + width exceeds
    the container. *)
Lemma constrainCropBox_overflows_small_container :
  let r := constrainCropBox (desktopDocument 40) (box 0 0 100 100) in
  r = box 0 0 50 50
  /\ (x r + width r <=? getContainerSize (desktopDocument 40)) = false.
Proof.
  split; reflexivity.
Qed.

(** C8: [constrainCropBox] is idempotent for a given document. *)
Theorem constrainCropBox_idempotent (doc : Document) (b : CropBox) :
  constrainCropBox doc (constrainCropBox doc b) = constrainCropBox doc b.
Proof.
  unfold constrainCropBox; cbn [x y width height].
  rewrite !clamp_idem. reflexivity.
Qed.

(** C5, as amended: for a finite container size and a box without a NaN
    field, [constrainCropBox] returns a box without a NaN field whose width
    and height are at least MIN_SIZE, hence non-negative; a NaN width
    (height) is not clamped: it comes back as NaN and makes x (y) NaN. *)
Theorem constrainCropBox_NaN (doc : Document) (b : CropBox) :
  isFinite (getContainerSize doc) = true ->
  let r := constrainCropBox doc b in
  (isNaN (x b) = false -> isNaN (y b) = false ->
   isNaN (width b) = false -> isNaN (height b) = false ->
   isNaN (x r) = false /\ isNaN (y r) = false
   /\ isNaN (width r) = false /\ isNaN (height r) = false
   /\ (width r >=? minSize) = true /\ (height r >=? minSize) = true
   /\ (width r >=? num 0) = true /\ (height r >=? num 0) = true)
  /\ (width b = NaN -> width r = NaN /\ x r = NaN)
  /\ (height b = NaN -> height r = NaN /\ y r = NaN).
Proof.
  intros Hfin r. split; [|split].
  - intros Hx Hy Hw Hh.
    destruct (constrain_axis_no_NaN (getContainerSize doc) (width b) (x b) Hfin Hw Hx)
      as (W & X & Wm & W0).
    destruct (constrain_axis_no_NaN (getContainerSize doc) (height b) (y b) Hfin Hh Hy)
      as (H & Y & Hm & H0).
    repeat split; assumption.
  - intros Hw. subst r. unfold constrainCropBox; cbn [x y width height].
    rewrite Hw. apply constrain_axis_NaN_size.
  - intros Hh. subst r. unfold constrainCropBox; cbn [x y width height].
    rewrite Hh. apply constrain_axis_NaN_size.
Qed.

Lemma constrainCropBox_NaN_witness :
  let r := constrainCropBox (desktopDocument 400) (box 10 10 (-30) 900) in
  isNaN (x r) = false /\ isNaN (y r) = false
  /\ isNaN (width r) = false /\ isNaN (height r) = false
  /\ (width r >=? minSize) = true /\ (height r >=? minSize) = true
  /\ (width r >=? num 0) = true /\ (height r >=? num 0) = true.
Proof.
  apply (constrainCropBox_NaN (desktopDocument 400) (box 10 10 (-30) 900));
    reflexivity.
Defined.

(** C5, as stated, fails on a NaN width: the NaN is returned as the width
    and as x instead of being clamped. *)
Lemma constrainCropBox_returns_NaN :
  constrainCropBox (desktopDocument 400) (mkCropBox (num 10) (num 10) NaN (num 100))
  = mkCropBox NaN (num 10) NaN (num 100).
Proof. reflexivity. Qed.

End ConstrainFacts.

(** ** The store action [updateCropBox] *)

Module StoreFacts.
Import JS.

(** C10: [updateCropBox] merges its partial argument over the current box.
    A field absent from the argument keeps its value, a field present is
    stored as given, and the image is untouched; in particular a complete
    box is stored verbatim, whatever its fields (NaN, negative, outside the
    container). *)
Theorem updateCropBox_merge (upd : PartialCropBox) (s : PicCutStore) :
  let b := cropBox (updateCropBox upd s) in
  (x_opt upd = None -> x b = x (cropBox s))
  /\ (y_opt upd = None -> y b = y (cropBox s))
  /\ (width_opt upd = None -> width b = width (cropBox s))
  /\ (height_opt upd = None -> height b = height (cropBox s))
  /\ (forall v, x_opt upd = Some v -> x b = v)
  /\ (forall v, y_opt upd = Some v -> y b = v)
  /\ (forall v, width_opt upd = Some v -> width b = v)
  /\ (forall v, height_opt upd = Some v -> height b = v)
  /\ image (updateCropBox upd s) = image s
  /\ (forall full, upd = allFields full -> b = full).
Proof.
  destruct upd as [ox oy ow oh]; cbn.
  repeat split; intros; subst; cbn; try reflexivity.
  match goal with H : mkPartial _ _ _ _ = allFields ?f |- _ =>
    destruct f; inversion H; reflexivity
  end.
Qed.

(** The store keeps a box that violates every crop-box invariant. *)
Example updateCropBox_no_validation :
  cropBox (updateCropBox (allFields (mkCropBox NaN (num (-5)) (num 0) PosInf)) initialStore)
  = mkCropBox NaN (num (-5)) (num 0) PosInf.
Proof. reflexivity. Qed.

(** Only the fields named in the update change. *)
Lemma updateCropBox_merge_witness :
  let b := cropBox (updateCropBox (mkPartial None None (Some (num 10)) None) initialStore) in
  x b = num 50 /\ width b = num 10.
Proof.
  pose proof (updateCropBox_merge (mkPartial None None (Some (num 10)) None) initialStore)
    as (Hx & _ & _ & _ & _ & _ & Hw & _).
  split; [exact (Hx eq_refl) | exact (Hw (num 10) eq_refl)].
Defined.

End StoreFacts.

(** ** The gesture state machine *)

Module GestureFacts.
Import JS CropBoxDesktop Spec.
Local Open Scope string_scope.
Local Open Scope js_scope.

Lemma startDrag_degenerate (doc : Document) (event : UIEvent) (st : State) :
  onBoxBody event = true ->
  degenerate (cropBox (store st)) = true ->
  startDrag doc event st
  = Normal (set_store (mkStore (resetBox doc) (image (store st))) st).
Proof.
  unfold onBoxBody, degenerate, startDrag. intros Hb Hd.
  apply negb_true_iff in Hb. rewrite Hb, Hd.
  destruct (resetBox doc); reflexivity.
Qed.

Lemma startResize_degenerate_store (doc : Document) (event : UIEvent)
    (handle : string) (st : State) :
  degenerate (cropBox (store st)) = true ->
  store (final (startResize doc event handle st))
  = mkStore (resetBox doc) (image (store st)).
Proof.
  unfold degenerate, startResize. intros Hd. rewrite Hd.
  destruct (resetBox doc), (clientXY event) as [[cx cy]|]; reflexivity.
Qed.

(** C7: with the crop box at {0, 0, 0, 0} and a container side of 400, a
    drag start on the box body resets the box to {140, 140, 120, 120} and
    does nothing else: the dragging flag, the listeners and the pending
    frames are as before. *)
Theorem startDrag_heals_zero_box (doc : Document) (event : UIEvent) (st : State) :
  cropBox (store st) = box 0 0 0 0 ->
  getContainerSize doc = num 400 ->
  onBoxBody event = true ->
  startDrag doc event st
  = Normal (set_store (mkStore (box 140 140 120 120) (image (store st))) st).
Proof.
  intros Hbox Hsize Hbody.
  rewrite startDrag_degenerate by (rewrite ?Hbox; auto).
  unfold resetBox. rewrite Hsize.
  vm_compute. reflexivity.
Qed.

Lemma startDrag_heals_zero_box_witness :
  let st := initialState (mkStore (box 0 0 0 0) (mkImageData (Some "blob:1") (num 800) (num 600))) in
  let st' := final (startDrag (desktopDocument 400)
                              (MouseEvent (Some ["crop-box"]) (num 300) (num 280)) st) in
  cropBox (store st') = box 140 140 120 120
  /\ isDragging st' = false
  /\ dragListeners st' = false.
Proof.
  intros st st'. subst st'.
  rewrite (startDrag_heals_zero_box (desktopDocument 400)
             (MouseEvent (Some ["crop-box"]) (num 300) (num 280)) st);
    repeat split; reflexivity.
Defined.

(** C4, as amended: when the current box has non-positive width or
    height, a drag start on the box body is discarded, the box being reset
    to the centred square of side max(MIN_SIZE, floor(0.3 * containerSize))
    at offset max(0, floor((containerSize - side) / 2)) and nothing else
    changing; a resize start commits the same reset box. *)
Theorem degenerate_start_resets_box (doc : Document) (event : UIEvent) (st : State) :
  degenerate (cropBox (store st)) = true ->
  let containerSize := getContainerSize doc in
  let side := Math.max minSize (Math.floor (containerSize * of_Q (3 # 10))) in
  let offset := Math.max (num 0) (Math.floor ((containerSize - side) / num 2)) in
  (onBoxBody event = true ->
   startDrag doc event st
   = Normal (set_store (mkStore (mkCropBox offset offset side side)
                                (image (store st))) st))
  /\ (forall handle,
        cropBox (store (final (startResize doc event handle st)))
        = mkCropBox offset offset side side).
Proof.
  intros Hd containerSize side offset. split.
  - intros Hb. apply startDrag_degenerate; assumption.
  - intros handle. rewrite startResize_degenerate_store by assumption. reflexivity.
Qed.

Lemma degenerate_start_resets_box_witness :
  let st := mkState (mkStore (box 30 40 (-10) 200) (mkImageData None (num 0) (num 0)))
                    false false (mkPoint (num 0) (num 0)) ""
                    (box 0 0 0 0) false false [] in
  let event := TouchEvent (Some ["crop-box"; "active"]) [(num 200, num 210)] in
  let st' := final (startDrag (desktopDocument 500) event st) in
  cropBox (store st') = box 175 175 150 150
  /\ isDragging st' = false
  /\ cropBox (store (final (startResize (desktopDocument 500) event "nw" st)))
     = box 175 175 150 150.
Proof.
  intros st event st'. subst st'.
  destruct (degenerate_start_resets_box (desktopDocument 500) event st eq_refl)
    as [Hdrag Hresize].
  rewrite (Hdrag eq_refl), (Hresize "nw").
  repeat split; vm_compute; reflexivity.
Defined.

(** C4, as stated, fails in a 100 px container: the reset square has side
    50, which is MIN_SIZE and not 30% of the container, and a resize start
    goes on into the resizing state with its listeners registered. *)
Lemma startResize_degenerate_counterexample :
  let st := initialState (mkStore (box 0 0 0 0) (mkImageData None (num 0) (num 0))) in
  let event := MouseEvent (Some ["crop-handle-desktop"]) (num 150) (num 150) in
  let st' := final (startResize (desktopDocument 100) event "se" st) in
  cropBox (store st') = box 25 25 50 50
  /\ isResizing st' = true
  /\ resizeListeners st' = true
  /\ cropBox (store (final (startDrag (desktopDocument 100)
                                      (MouseEvent None (num 150) (num 150)) st)))
     = box 25 25 50 50.
Proof.
  repeat split; vm_compute; reflexivity.
Qed.

Lemma resizedBox_spec (h : Handle) (dx dy : number) (snap : CropBox) :
  resizedBox (handleName h) dx dy snap = spec_candidate h dx dy snap.
Proof.
  destruct snap as [sx sy sw0 sh0].
  destruct h;
    cbv [resizedBox spec_candidate spec_floor_size spec_transform handleName
         set_x set_y set_width set_height x y width height
         String.eqb Ascii.eqb Bool.eqb];
    rewrite <- !floor_test_is_max by reflexivity;
    repeat (match goal with
            | |- context [if ?c then _ else _] =>
                lazymatch c with
                | context [if _ then _ else _] => fail
                | _ => destruct c
                end
            end; cbv beta iota);
    reflexivity.
Qed.

(** C2: while resizing, a pointer move at delta (dx, dy) from the gesture
    start requests one frame whose candidate box is the snapshot
    transformed for the handle (nw: x+dx, y+dy, width-dx, height-dy;
    ne: y+dy, width+dx, height-dy; sw: x+dx, width-dx, height+dy;
    se: width+dx, height+dy) with width and height then floored at
    MIN_SIZE and x, y left as transformed; that frame submits the
    candidate to [constrainCropBox] and commits the result. *)
Theorem handleResize_candidate (doc doc' : Document) (event : UIEvent) (st : State)
    (h : Handle) (clientX clientY : number) :
  isResizing st = true ->
  resizeHandle st = handleName h ->
  clientXY event = Some (clientX, clientY) ->
  let dx := px (pointerPos doc clientX clientY) - px (dragStartPos st) in
  let dy := py (pointerPos doc clientX clientY) - py (dragStartPos st) in
  let candidate := spec_candidate h dx dy (initialCropBox st) in
  handleResize doc event st = Normal (requestAnimationFrame candidate st)
  /\ x candidate = x (spec_transform h dx dy (initialCropBox st))
  /\ y candidate = y (spec_transform h dx dy (initialCropBox st))
  /\ (frames st = [] ->
      cropBox (store (runFrame doc' (requestAnimationFrame candidate st)))
      = constrainCropBox doc' candidate).
Proof.
  intros Hres Hh Hxy dx dy candidate. repeat split.
  - unfold handleResize. rewrite Hres, Hxy, Hh. cbn [negb].
    subst candidate dx dy. unfold pointerPos.
    destruct (previewContainerDesktop doc); cbn [px py];
      rewrite resizedBox_spec; reflexivity.
  - intros Hfr. unfold runFrame, requestAnimationFrame. cbn [frames].
    rewrite Hfr. cbn [app]. destruct (constrainCropBox doc' candidate); reflexivity.
Qed.

Lemma handleResize_candidate_witness :
  let st := mkState (mkStore (box 100 100 200 200) (mkImageData None (num 0) (num 0)))
                    false true (mkPoint (num 100) (num 100)) "nw"
                    (box 100 100 200 200) false true [] in
  let event := MouseEvent None (num 380) (num 200) in
  handleResize (desktopDocument 400) event st
  = Normal (requestAnimationFrame (box 280 120 50 180) st)
  /\ cropBox (store (runFrame (desktopDocument 400)
                              (requestAnimationFrame (box 280 120 50 180) st)))
     = box 280 120 50 180.
Proof.
  intros st event.
  destruct (handleResize_candidate (desktopDocument 400) (desktopDocument 400)
              event st nw (num 380) (num 200) eq_refl eq_refl eq_refl)
    as (Hmove & _ & _ & Hframe).
  split.
  - rewrite Hmove. vm_compute. reflexivity.
  - specialize (Hframe eq_refl). vm_compute in Hframe |- *. exact Hframe.
Defined.

(** *** Drag *)

(** C9: while dragging, a pointer move on a box whose width and height lie
    between MIN_SIZE and the container size requests one frame; once that
    frame has run, with the container measured at that moment, width and
    height are what they were before the move, and x and y are the pointer
    position minus the drag anchor, clamped into the container. *)
Theorem handleDrag_keeps_size (doc doc' : Document) (rect : DOMRect.t)
    (event : UIEvent) (st : State) (clientX clientY : number) :
  isDragging st = true ->
  frames st = [] ->
  previewContainerDesktop doc = Some rect ->
  clientXY event = Some (clientX, clientY) ->
  let containerSize := getContainerSize doc' in
  let b := cropBox (store st) in
  (minSize <=? width b) = true ->
  (width b <=? containerSize) = true ->
  (minSize <=? height b) = true ->
  (height b <=? containerSize) = true ->
  exists st1,
    handleDrag doc event st = Normal st1
    /\ let b' := cropBox (store (runFrame doc' st1)) in
       width b' = width b
       /\ height b' = height b
       /\ x b' = Math.max (num 0)
                   (Math.min (Math.max (num 0) (containerSize - width b))
                             (clientX - DOMRect.left rect - px (dragStartPos st)))
       /\ y b' = Math.max (num 0)
                   (Math.min (Math.max (num 0) (containerSize - height b))
                             (clientY - DOMRect.top rect - py (dragStartPos st))).
Proof.
  intros Hdrag Hfr Hrect Hxy containerSize b Hw1 Hw2 Hh1 Hh2.
  unfold handleDrag. rewrite Hdrag, Hxy, Hrect. cbn [negb].
  eexists. split; [reflexivity|].
  unfold runFrame, requestAnimationFrame. cbn [frames]. rewrite Hfr. cbn [app].
  cbn [store updateCropBox cropBox allFields spread x_opt y_opt width_opt height_opt
       x y width height constrainCropBox].
  fold containerSize. fold b.
  rewrite (clamp_inside minSize containerSize (width b) Hw1 Hw2).
  rewrite (clamp_inside minSize containerSize (height b) Hh1 Hh2).
  repeat split; reflexivity.
Qed.

Lemma handleDrag_keeps_size_witness :
  let st := mkState (mkStore (box 100 100 200 150) (mkImageData None (num 0) (num 0)))
                    true false (mkPoint (num 20) (num 30)) ""
                    (box 0 0 0 0) true false [] in
  let event := MouseEvent None (num 600) (num 90) in
  exists st1,
    handleDrag (desktopDocument 400) event st = Normal st1
    /\ cropBox (store (runFrame (desktopDocument 360) st1)) = box 160 0 200 150.
Proof.
  intros st event.
  destruct (handleDrag_keeps_size (desktopDocument 400) (desktopDocument 360)
              (DOMRect.mk (num 100) (num 80) (num 400) (num 400))
              event st (num 600) (num 90)
              eq_refl eq_refl eq_refl eq_refl eq_refl eq_refl eq_refl eq_refl)
    as (st1 & Hmove & Hw & Hh & Hx & Hy).
  exists st1. split; [exact Hmove|].
  destruct (cropBox (store (runFrame (desktopDocument 360) st1))) as [bx b_y bw bh].
  cbn [x y width height] in Hw, Hh, Hx, Hy. subst bx b_y bw bh.
  js_compute.
Defined.

(** When the container element is missing, a move requests no frame and
    commits nothing. *)
Lemma handleDrag_without_container (doc : Document) (event : UIEvent) (st : State) :
  previewContainerDesktop doc = None ->
  final (handleDrag doc event st) = st.
Proof.
  intros Hnone. unfold handleDrag. rewrite Hnone.
  destruct (isDragging st), (clientXY event) as [[cx cy]|]; reflexivity.
Qed.

(** Without the size hypothesis the move does change the size: a box wider
    than the container is narrowed by the frame. *)
Example handleDrag_narrows_oversized_box :
  let st := mkState (mkStore (box 0 0 500 150) (mkImageData None (num 0) (num 0)))
                    true false (mkPoint (num 20) (num 30)) ""
                    (box 0 0 0 0) true false [] in
  cropBox (store (runFrame (desktopDocument 400)
                    (final (handleDrag (desktopDocument 400)
                                       (MouseEvent None (num 150) (num 150)) st))))
  = box 0 40 400 150.
Proof. js_compute. Qed.

(** A resize start on a degenerate box resets the box and then carries on:
    the snapshot is the reset box and the resizing state is entered, whereas
    [startDrag] returns right after the reset. *)
Lemma startResize_degenerate_continues (doc : Document) (handle : string)
    (st : State) (target : option (list string)) (clientX clientY : number) :
  degenerate (cropBox (store st)) = true ->
  let st' := final (startResize doc (MouseEvent target clientX clientY) handle st) in
  isResizing st' = true
  /\ resizeListeners st' = true
  /\ resizeHandle st' = handle
  /\ initialCropBox st' = resetBox doc.
Proof.
  unfold degenerate, startResize. intros Hd. rewrite Hd.
  cbn [clientXY final isResizing resizeListeners resizeHandle initialCropBox
       set_store store updateCropBox cropBox].
  destruct (resetBox doc); repeat split.
Qed.

End GestureFacts.



(** ** The display mapping *)

Module DisplayFacts.
Import JS Display.
Local Open Scope js_scope.

Lemma Qc_ltb_lt (a b : Qc) : Qc_ltb a b = true <-> (a < b)%Qc.
Proof. apply Qc_ltb_true. Qed.

Lemma Qc_ltb_ge (a b : Qc) : Qc_ltb a b = false <-> (b <= a)%Qc.
Proof. apply Qc_ltb_false. Qed.

Lemma Qc_leb_le (a b : Qc) : Qc_leb a b = true <-> (a <= b)%Qc.
Proof. apply Qc_leb_true. Qed.

Lemma Qc_eqb_pos (a : Qc) : (0 < a)%Qc -> Qc_eqb a 0 = false.
Proof.
  intros Ha. apply Qc_eqb_false. intros E.
  unfold Qclt in Ha. rewrite E in Ha. exact (Qlt_irrefl _ Ha).
Qed.

(** The mapping on finite positive arguments, branch by branch. *)
Lemma mapping_wide (c w h : Qc) :
  (0 < h)%Qc -> (1 < w / h)%Qc ->
  mapping (Fin c) (Fin w) (Fin h)
  = mkMapping (Fin c) (Fin (c / (w / h))) (num 0)
              ((Fin c - Fin (c / (w / h))) / num 2).
Proof.
  intros Hh Ha. unfold mapping. cbn [div].
  rewrite (Qc_eqb_pos h Hh). cbn [gtb ltb of_Z].
  change (Q2Qc (inject_Z 1)) with 1%Qc.
  rewrite (proj2 (Qc_ltb_lt 1 (w / h)) Ha).
  cbn [div]. rewrite Qc_eqb_pos; [reflexivity|].
  apply Qclt_trans with 1%Qc; [reflexivity | assumption].
Qed.

Lemma mapping_tall (c w h : Qc) :
  (0 < h)%Qc -> (w / h <= 1)%Qc ->
  mapping (Fin c) (Fin w) (Fin h)
  = mkMapping (Fin (c * (w / h))) (Fin c)
              ((Fin c - Fin (c * (w / h))) / num 2) (num 0).
Proof.
  intros Hh Ha. unfold mapping. cbn [div].
  rewrite (Qc_eqb_pos h Hh). cbn [gtb ltb of_Z].
  change (Q2Qc (inject_Z 1)) with 1%Qc.
  rewrite (proj2 (Qc_ltb_ge 1 (w / h)) Ha).
  reflexivity.
Qed.

(** C3: for a finite container size and finite image dimensions, all
    positive, the displayed width and height are at most the container
    size, at least one of them equals it, and both do when the image is
    square. *)
Theorem mapping_fits (containerSize imgWidth imgHeight : number) :
  isFinite containerSize = true ->
  isFinite imgWidth = true ->
  isFinite imgHeight = true ->
  (containerSize >? num 0) = true ->
  (imgWidth >? num 0) = true ->
  (imgHeight >? num 0) = true ->
  let m := mapping containerSize imgWidth imgHeight in
  (imageDisplayWidth m <=? containerSize) = true
  /\ (imageDisplayHeight m <=? containerSize) = true
  /\ (imageDisplayWidth m = containerSize \/ imageDisplayHeight m = containerSize)
  /\ (imgWidth = imgHeight ->
      imageDisplayWidth m = containerSize /\ imageDisplayHeight m = containerSize).
Proof.
  intros Fc Fw Fh.
  destruct containerSize as [| |c|]; try discriminate Fc.
  destruct imgWidth as [| |w|]; try discriminate Fw.
  destruct imgHeight as [| |h|]; try discriminate Fh.
  intros Hc Hw Hh m.
  cbn [gtb ltb of_Z] in Hc, Hw, Hh.
  change (Q2Qc (inject_Z 0)) with 0%Qc in Hc, Hw, Hh.
  apply Qc_ltb_lt in Hc, Hw, Hh.
  assert (Hcc : Qc_leb c c = true) by (apply Qc_leb_le, Qcle_refl).
  destruct (Qc_ltb 1 (w / h)) eqn:Ha.
  - apply Qc_ltb_lt in Ha.
    subst m. rewrite (mapping_wide c w h Hh Ha).
    cbn [imageDisplayWidth imageDisplayHeight leb].
    split; [exact Hcc | split; [| split]].
    + apply Qc_leb_le, Qc_div_shrinks; assumption.
    + left; reflexivity.
    + intros E. exfalso. injection E as ->.
      rewrite (Qc_div_same h Hh) in Ha. exact (Qlt_irrefl _ Ha).
  - apply Qc_ltb_ge in Ha.
    subst m. rewrite (mapping_tall c w h Hh Ha).
    cbn [imageDisplayWidth imageDisplayHeight leb].
    split; [| split; [exact Hcc | split]].
    + apply Qc_leb_le, Qc_mul_shrinks; assumption.
    + right; reflexivity.
    + intros E. injection E as ->.
      rewrite (Qc_div_same h Hh), Qcmult_1_r. split; reflexivity.
Qed.

Lemma mapping_fits_witness :
  let m := mapping (num 500) (num 1000) (num 500) in
  (imageDisplayWidth m <=? num 500) = true
  /\ (imageDisplayHeight m <=? num 500) = true
  /\ (imageDisplayWidth m = num 500 \/ imageDisplayHeight m = num 500)
  /\ (num 1000 = num 500 ->
      imageDisplayWidth m = num 500 /\ imageDisplayHeight m = num 500).
Proof.
  apply (mapping_fits (num 500) (num 1000) (num 500)); reflexivity.
Defined.

(** A 1000 x 500 image in a 500 px container is shown 500 x 250, 125 px down. *)
Example mapping_wide_image :
  mapping (num 500) (num 1000) (num 500)
  = mkMapping (num 500) (num 250) (num 0) (num 125).
Proof. js_compute. Qed.

End DisplayFacts.

(** ** Resetting the crop box onto an image *)

Module ResetFacts.
Import JS Display Spec.
Local Open Scope string_scope.
Local Open Scope js_scope.






(** On first load a narrow image gets a box wider than the image: for a
    10 x 500 image in a 400 px container the image is shown 8 px wide and
    the box is floored at MIN_SIZE. *)
Example adjustCropBoxToImage_narrow_image :
  cropBox (CropBoxDesktop.store
             (CropBoxDesktop.adjustCropBoxToImage (desktopDocument 400) (withImage 10 500)))
  = box 198 2 50 396
  /\ inset 2 (mapping (num 400) (num 10) (num 500)) = box 198 2 4 396.
Proof. split; js_compute. Qed.

End ResetFacts.

(** ** More on [constrainCropBox] *)

Section OrderFacts.
Import JS.

Lemma leb_trans (a b c : number) : leb a b = true -> leb b c = true -> leb a c = true.
Proof.
  destruct a, b, c; intros; js_cases.
Qed.

Lemma leb_not_ltb (a b : number) : leb a b = true -> ltb b a = false.
Proof.
  destruct a, b; intros; js_cases.
Qed.

Lemma add_0_r (a : number) : add a (num 0) = a.
Proof.
  destruct a; try reflexivity.
  cbn [add of_Z]. f_equal. apply Qcplus_0_r.
Qed.

Lemma sub_0_r (a : number) : sub a (num 0) = a.
Proof.
  destruct a; try reflexivity.
  cbn [sub add neg of_Z]. f_equal.
  change (Q2Qc (inject_Z 0)) with 0%Qc. ring.
Qed.

(** One axis of [constrainCropBox] on a size and a position that are
    already in range. *)
Lemma constrain_axis_valid (containerSize size pos : number) :
  leb CropBoxDesktop.minSize size = true ->
  leb size containerSize = true ->
  leb (num 0) pos = true ->
  leb pos (sub containerSize size) = true ->
  let size' := Math.max CropBoxDesktop.minSize (Math.min containerSize size) in
  let pos' := Math.max (num 0) (Math.min (Math.max (num 0) (sub containerSize size')) pos) in
  size' = size /\ pos' = pos.
Proof.
  intros Hs1 Hs2 Hp1 Hp2 size' pos'.
  assert (Es : size' = size) by (apply clamp_inside; assumption).
  split; [exact Es|].
  subst pos'. rewrite Es.
  rewrite (max_of_le (num 0) (sub containerSize size) (leb_trans _ _ _ Hp1 Hp2)).
  apply clamp_inside; assumption.
Qed.

(** One axis of [constrainCropBox] in a container smaller than the minimum
    size. *)
Lemma constrain_axis_tiny (containerSize size pos : number) :
  ltb containerSize CropBoxDesktop.minSize = true ->
  isNaN size = false ->
  isNaN pos = false ->
  let size' := Math.max CropBoxDesktop.minSize (Math.min containerSize size) in
  let pos' := Math.max (num 0) (Math.min (Math.max (num 0) (sub containerSize size')) pos) in
  size' = CropBoxDesktop.minSize /\ pos' = num 0.
Proof.
  unfold CropBoxDesktop.minSize, of_Z.
  destruct containerSize, size, pos; intros; split; js_cases.
Qed.

(** Whatever it is compared with, the larger of MIN_SIZE and a number is
    neither below MIN_SIZE nor non-positive. *)
Lemma max_minSize_floor (v : number) :
  ltb (Math.max CropBoxDesktop.minSize v) CropBoxDesktop.minSize = false
  /\ leb (Math.max CropBoxDesktop.minSize v) (num 0) = false.
Proof.
  unfold CropBoxDesktop.minSize, of_Z.
  destruct v; split; js_cases.
Qed.

End OrderFacts.

Module ConstrainMore.
Import JS CropBoxDesktop.
Local Open Scope js_scope.

(** X1: a box that already has MIN_SIZE <= width, height <= containerSize,
    0 <= x <= containerSize - width and 0 <= y <= containerSize - height is
    returned by [constrainCropBox] as it is. *)
Theorem constrainCropBox_fixes_valid (doc : Document) (b : CropBox) :
  let containerSize := getContainerSize doc in
  (minSize <=? width b) = true ->
  (width b <=? containerSize) = true ->
  (minSize <=? height b) = true ->
  (height b <=? containerSize) = true ->
  (num 0 <=? x b) = true ->
  (x b <=? containerSize - width b) = true ->
  (num 0 <=? y b) = true ->
  (y b <=? containerSize - height b) = true ->
  constrainCropBox doc b = b.
Proof.
  intros containerSize Hw1 Hw2 Hh1 Hh2 Hx1 Hx2 Hy1 Hy2.
  destruct (constrain_axis_valid containerSize (width b) (x b) Hw1 Hw2 Hx1 Hx2)
    as [Ew Ex].
  destruct (constrain_axis_valid containerSize (height b) (y b) Hh1 Hh2 Hy1 Hy2)
    as [Eh Ey].
  unfold constrainCropBox. fold containerSize.
  rewrite Ex, Ey, Ew, Eh. destruct b; reflexivity.
Qed.

Lemma constrainCropBox_fixes_valid_witness :
  constrainCropBox (desktopDocument 400) (box 350 0 50 400) = box 350 0 50 400.
Proof.
  apply (constrainCropBox_fixes_valid (desktopDocument 400) (box 350 0 50 400));
    reflexivity.
Defined.

(** X2: in a container smaller than MIN_SIZE every box without a NaN field
    comes back as the MIN_SIZE square at the origin. *)
Theorem constrainCropBox_tiny_container (doc : Document) (b : CropBox) :
  (getContainerSize doc <? minSize) = true ->
  isNaN (x b) = false ->
  isNaN (y b) = false ->
  isNaN (width b) = false ->
  isNaN (height b) = false ->
  constrainCropBox doc b = mkCropBox (num 0) (num 0) minSize minSize.
Proof.
  intros Hc Hx Hy Hw Hh.
  destruct (constrain_axis_tiny (getContainerSize doc) (width b) (x b) Hc Hw Hx)
    as [Ew Ex].
  destruct (constrain_axis_tiny (getContainerSize doc) (height b) (y b) Hc Hh Hy)
    as [Eh Ey].
  unfold constrainCropBox. rewrite Ex, Ey, Ew, Eh. reflexivity.
Qed.

Lemma constrainCropBox_tiny_container_witness :
  constrainCropBox (desktopDocument 0) (box 120 (-7) 300 20) = box 0 0 50 50.
Proof.
  apply (constrainCropBox_tiny_container (desktopDocument 0) (box 120 (-7) 300 20));
    reflexivity.
Defined.

End ConstrainMore.

(** ** More on the gesture handlers *)

Module GestureMore.
Import JS CropBoxDesktop Spec Machine.
Local Open Scope string_scope.
Local Open Scope js_scope.

(** X3: the self-healing reset is one-shot.  The box it commits is never
    degenerate, so the drag start that follows a healed one on the box body
    enters the dragging state and leaves the healed box in place. *)
Theorem heal_then_drag (doc doc' : Document) (event event' : UIEvent) (st : State)
    (clientX clientY : number) :
  onBoxBody event = true ->
  onBoxBody event' = true ->
  clientXY event' = Some (clientX, clientY) ->
  degenerate (cropBox (store st)) = true ->
  let healed := final (startDrag doc event st) in
  degenerate (cropBox (store healed)) = false
  /\ exists st',
       startDrag doc' event' healed = Normal st'
       /\ isDragging st' = true
       /\ dragListeners st' = true
       /\ cropBox (store st') = resetBox doc.
Proof.
  intros Hb Hb' Hxy Hd healed.
  assert (Eh : healed = set_store (mkStore (resetBox doc) (image (store st))) st).
  { subst healed. unfold startDrag.
    unfold onBoxBody in Hb. apply negb_true_iff in Hb.
    unfold degenerate in Hd. rewrite Hb, Hd.
    destruct (resetBox doc); reflexivity. }
  assert (Hnd : degenerate (resetBox doc) = false).
  { unfold degenerate, resetBox. cbn [width height].
    rewrite (proj2 (max_minSize_floor _)). reflexivity. }
  rewrite Eh. cbn [set_store store cropBox]. split; [exact Hnd|].
  unfold startDrag.
  unfold onBoxBody in Hb'. apply negb_true_iff in Hb'. rewrite Hb'.
  cbn [set_store store cropBox]. unfold degenerate in Hnd. rewrite Hnd, Hxy.
  eexists. split; [reflexivity|].
  destruct (previewContainerDesktop doc'); repeat split.
Qed.

Lemma heal_then_drag_witness :
  let st := initialState (mkStore (box 10 10 0 80) (mkImageData None (num 0) (num 0))) in
  let down := MouseEvent (Some ["crop-box"]) (num 300) (num 300) in
  exists st',
    startDrag (desktopDocument 400) down (final (startDrag (desktopDocument 400) down st))
    = Normal st'
    /\ isDragging st' = true.
Proof.
  intros st down.
  destruct (heal_then_drag (desktopDocument 400) (desktopDocument 400) down down st
              (num 300) (num 300) eq_refl eq_refl eq_refl eq_refl)
    as (_ & st' & Hs & Hd & _).
  exists st'. split; assumption.
Defined.

(** X4: from a state whose listeners match its flags and whose box is not
    degenerate, a pointer-down that carries a pointer position, followed by
    a pointer-up with no move in between, leaves the store and the pending
    frames as they were and the composable idle, with no listener left;
    this holds for a drag start and for a resize start. *)
Theorem press_release_keeps_store (doc : Document) (event : UIEvent)
    (handle : string) (st : State) (clientX clientY : number) :
  degenerate (cropBox (store st)) = false ->
  clientXY event = Some (clientX, clientY) ->
  dragListeners st = isDragging st ->
  resizeListeners st = isResizing st ->
  let dragged := pointerUp (final (startDrag doc event st)) in
  let resized := pointerUp (final (startResize doc event handle st)) in
  store dragged = store st
  /\ isDragging dragged = false
  /\ dragListeners dragged = false
  /\ isResizing dragged = false
  /\ resizeListeners dragged = false
  /\ frames dragged = frames st
  /\ store resized = store st
  /\ isDragging resized = false
  /\ dragListeners resized = false
  /\ isResizing resized = false
  /\ resizeListeners resized = false
  /\ resizeHandle resized = ""
  /\ frames resized = frames st.
Proof.
  intros Hd Hxy Hdl Hrl dragged resized. unfold degenerate in Hd.
  subst dragged resized. unfold startDrag, startResize. rewrite Hd, Hxy.
  destruct st as [s dragging resizing pos name snapshot dl rl fs].
  cbn [dragListeners isDragging resizeListeners isResizing] in Hdl, Hrl.
  subst dl rl.
  destruct (match target event with Some c => isHandle c | None => false end),
    dragging, resizing; cbn; repeat split.
Qed.

Lemma press_release_keeps_store_witness :
  let st := initialState initialStore in
  let down := TouchEvent (Some ["crop-box"]) [(num 210, num 190)] in
  store (pointerUp (final (startDrag (desktopDocument 400) down st))) = initialStore
  /\ isDragging (pointerUp (final (startDrag (desktopDocument 400) down st))) = false
  /\ store (pointerUp (final (startResize (desktopDocument 400) down "se" st)))
     = initialStore.
Proof.
  intros st down.
  destruct (press_release_keeps_store (desktopDocument 400) down "se" st
              (num 210) (num 190) eq_refl eq_refl eq_refl eq_refl)
    as (Hd & Hi & _ & _ & _ & _ & Hr & _).
  repeat split; assumption.
Defined.

(** A touch event without touches makes [startDrag] throw after it has set
    [isDragging] and before it registers its listeners: no pointer-up
    reaches [stopDrag], and the flag stays set. *)
Lemma startDrag_throws_without_touches (doc : Document) (target : option (list string))
    (st : State) :
  onBoxBody (TouchEvent target []) = true ->
  degenerate (cropBox (store st)) = false ->
  dragListeners st = false ->
  resizeListeners st = false ->
  exists st',
    startDrag doc (TouchEvent target []) st = Threw st'
    /\ isDragging st' = true
    /\ dragListeners st' = false
    /\ pointerUp st' = st'.
Proof.
  intros Hb Hd Hdl Hrl. unfold onBoxBody in Hb. apply negb_true_iff in Hb.
  unfold degenerate in Hd. unfold startDrag. rewrite Hb, Hd. cbn [clientXY hd_error].
  eexists. split; [reflexivity|].
  unfold pointerUp. cbn [isDragging dragListeners resizeListeners].
  rewrite Hdl, Hrl. repeat split.
Qed.

(** X5: once the gesture has been stopped, pointer moves are ignored: any
    sequence of moves, each with its own document, leaves the state as
    [stopDrag] (resp. [stopResize]) left it. *)
Theorem moves_after_stop_ignored (moves : list (Document * UIEvent)) (st : State) :
  fold_left (fun s m => final (handleDrag (fst m) (snd m) s)) moves (stopDrag st)
  = stopDrag st
  /\ fold_left (fun s m => final (handleResize (fst m) (snd m) s)) moves (stopResize st)
     = stopResize st.
Proof.
  split; induction moves as [|m moves IH]; cbn [fold_left]; try reflexivity.
  - replace (final (handleDrag (fst m) (snd m) (stopDrag st))) with (stopDrag st)
      by reflexivity.
    exact IH.
  - replace (final (handleResize (fst m) (snd m) (stopResize st))) with (stopResize st)
      by reflexivity.
    exact IH.
Qed.

(** X6: in every state the composable reaches from a fresh instance through
    handlers that complete normally, the drag listeners are registered
    exactly while [isDragging] is set, the resize listeners exactly while
    [isResizing] is set, and the handle name is empty outside a resize. *)
Theorem reachable_listeners (st : State) :
  reachable st ->
  dragListeners st = isDragging st
  /\ resizeListeners st = isResizing st
  /\ (isResizing st = false -> resizeHandle st = "").
Proof.
  induction 1 as [s
                 | doc event st st' Hr IH E
                 | doc event st st' Hr IH E
                 | st Hr IH
                 | doc event handle st st' Hr IH E
                 | doc event st st' Hr IH E
                 | st Hr IH
                 | doc st Hr IH
                 | doc st Hr IH
                 | doc st Hr IH].
  - repeat split.
  - destruct IH as (I1 & I2 & I3). unfold startDrag in E.
    destruct (match target event with Some c => isHandle c | None => false end).
    { injection E as <-. repeat split; assumption. }
    destruct ((width (cropBox (store st)) <=? num 0)
              || (height (cropBox (store st)) <=? num 0)).
    { injection E as <-. repeat split; assumption. }
    destruct (clientXY event) as [[cx cy]|]; [|discriminate E].
    injection E as <-. cbn. repeat split; assumption.
  - destruct IH as (I1 & I2 & I3). unfold handleDrag in E.
    destruct (negb (isDragging st)).
    { injection E as <-. repeat split; assumption. }
    destruct (clientXY event) as [[cx cy]|]; [|discriminate E].
    destruct (previewContainerDesktop doc);
      injection E as <-; cbn; repeat split; assumption.
  - destruct IH as (I1 & I2 & I3). cbn. repeat split; assumption.
  - destruct IH as (I1 & I2 & I3). unfold startResize in E.
    destruct (clientXY event) as [[cx cy]|]; [|discriminate E].
    injection E as <-.
    destruct ((width (cropBox (store st)) <=? num 0)
              || (height (cropBox (store st)) <=? num 0));
      cbn; repeat split; try assumption; intros; discriminate.
  - destruct IH as (I1 & I2 & I3). unfold handleResize in E.
    destruct (negb (isResizing st)).
    { injection E as <-. repeat split; assumption. }
    destruct (clientXY event) as [[cx cy]|]; [|discriminate E].
    destruct (previewContainerDesktop doc);
      injection E as <-; cbn; repeat split; assumption.
  - destruct IH as (I1 & I2 & I3). cbn. repeat split; assumption.
  - destruct IH as (I1 & I2 & I3). unfold runFrame.
    destruct (frames st); cbn; repeat split; assumption.
  - destruct IH as (I1 & I2 & I3). cbn. repeat split; assumption.
  - destruct IH as (I1 & I2 & I3). unfold adjustCropBoxToImage.
    destruct (negb (hasImage (store st))); cbn; repeat split; assumption.
Qed.

Lemma reachable_listeners_witness :
  let st := final (startDrag (desktopDocument 400)
                             (MouseEvent None (num 200) (num 200))
                             (initialState initialStore)) in
  dragListeners st = isDragging st
  /\ resizeListeners st = isResizing st
  /\ (isResizing st = false -> resizeHandle st = "").
Proof.
  intros st.
  apply (reachable_listeners st).
  apply (reach_startDrag (desktopDocument 400) (MouseEvent None (num 200) (num 200))
                         (initialState initialStore) st (reach_initial initialStore)).
  reflexivity.
Defined.

End GestureMore.

Module ResizeMore.
Import JS CropBoxDesktop Spec.
Local Open Scope string_scope.
Local Open Scope js_scope.

Lemma minSize_not_below_itself : (minSize <? minSize) = false.
Proof. reflexivity. Qed.

(** X7: whatever the handle name, the deltas and the snapshot, the box a
    resize move proposes never has a width or a height below MIN_SIZE. *)
Theorem resizedBox_at_least_minSize (handle : string) (deltaX deltaY : number)
    (initial : CropBox) :
  (width (resizedBox handle deltaX deltaY initial) <? minSize) = false
  /\ (height (resizedBox handle deltaX deltaY initial) <? minSize) = false.
Proof.
  unfold resizedBox.
  match goal with
  | |- context [if width ?b <? minSize then _ else _] => generalize b
  end.
  intros moved.
  destruct (width moved <? minSize) eqn:Ew;
    cbn [set_width set_height width height];
    match goal with
    | |- context [if ?c then _ else _] => destruct c eqn:Eh
    end;
    cbn [set_width set_height width height];
    rewrite ?Ew, ?Eh; split; try reflexivity; assumption.
Qed.

(** X8: a resize move with a zero delta proposes the snapshot itself when
    the snapshot's width and height are at least MIN_SIZE, whatever the
    handle name. *)
Theorem resizedBox_zero_delta (handle : string) (initial : CropBox) :
  (minSize <=? width initial) = true ->
  (minSize <=? height initial) = true ->
  resizedBox handle (num 0) (num 0) initial = initial.
Proof.
  intros Hw Hh. apply leb_not_ltb in Hw, Hh.
  destruct initial as [bx b_y bw bh]. cbn [width height] in Hw, Hh.
  unfold resizedBox.
  repeat match goal with
  | |- context [String.eqb handle ?s] => destruct (String.eqb handle s)
  end;
    cbn [set_x set_y set_width set_height x y width height];
    rewrite ?add_0_r, ?sub_0_r, ?Hw;
    cbn [set_x set_y set_width set_height x y width height];
    rewrite ?Hh; reflexivity.
Qed.

Lemma resizedBox_zero_delta_witness :
  resizedBox "sw" (num 0) (num 0) (box 20 30 50 120) = box 20 30 50 120.
Proof.
  apply (resizedBox_zero_delta "sw" (box 20 30 50 120)); reflexivity.
Defined.

(** The difference with a finite number keeps the order. *)
Lemma sub_monotone (a b c : number) :
  isFinite c = true ->
  leb a b = true ->
  leb (sub a c) (sub b c) = true.
Proof.
  intros Hc. destruct c; try discriminate Hc.
  destruct a, b; intros; js_cases.
Qed.

(** X9: a drag follows the pointer through the anchor captured at its
    start.  After a drag start at (x0, y0), a move to (x1, y1) requests a
    frame for the box at ((x1 - left') - ((x0 - left) - x),
    (y1 - top') - ((y0 - top) - y)), with the stored width and height,
    [left], [top] and [left'], [top'] being the container's corner at the
    start and at the move.  When that corner and the anchor are finite,
    the requested x and y are monotone in the pointer position: of two
    moves, the one further right (down) never gets the smaller x (y). *)
Theorem drag_follows_pointer (rect rect' : DOMRect.t) (doc doc' : Document)
    (event event' : UIEvent) (st : State) (x0 y0 x1 y1 : number) :
  previewContainerDesktop doc = Some rect ->
  previewContainerDesktop doc' = Some rect' ->
  clientXY event = Some (x0, y0) ->
  clientXY event' = Some (x1, y1) ->
  onBoxBody event = true ->
  degenerate (cropBox (store st)) = false ->
  let b := cropBox (store st) in
  let anchorX := x0 - DOMRect.left rect - x b in
  let anchorY := y0 - DOMRect.top rect - y b in
  let requested (px py : number) :=
    mkCropBox (px - DOMRect.left rect' - anchorX) (py - DOMRect.top rect' - anchorY)
              (width b) (height b) in
  (exists st1,
     startDrag doc event st = Normal st1
     /\ handleDrag doc' event' st1
        = Normal (requestAnimationFrame (requested x1 y1) st1))
  /\ (forall x2 y2,
        isFinite (DOMRect.left rect') = true ->
        isFinite (DOMRect.top rect') = true ->
        isFinite anchorX = true ->
        isFinite anchorY = true ->
        (x1 <=? x2) = true ->
        (y1 <=? y2) = true ->
        (x (requested x1 y1) <=? x (requested x2 y2)) = true
        /\ (y (requested x1 y1) <=? y (requested x2 y2)) = true).
Proof.
  intros Hdoc Hdoc' Hxy Hxy' Hb Hd b anchorX anchorY requested. split.
  - unfold startDrag. unfold onBoxBody in Hb. apply negb_true_iff in Hb.
    unfold degenerate in Hd. rewrite Hb, Hd, Hxy, Hdoc.
    eexists. split; [reflexivity|].
    unfold handleDrag. cbn [isDragging negb dragStartPos px py store].
    rewrite Hxy', Hdoc'. reflexivity.
  - intros x2 y2 Fl Ft Fax Fay Hx Hy. subst requested. cbn [x y].
    split; apply sub_monotone; try assumption; apply sub_monotone; assumption.
Qed.

Lemma drag_follows_pointer_witness :
  (exists st1,
     startDrag (desktopDocument 400) (MouseEvent None (num 250) (num 240))
               (initialState initialStore) = Normal st1
     /\ handleDrag (desktopDocument 400) (MouseEvent None (num 280) (num 200)) st1
        = Normal (requestAnimationFrame (box 80 10 300 300) st1))
  /\ (num 280 - num 100 - (num 250 - num 100 - num 50)
      <=? num 300 - num 100 - (num 250 - num 100 - num 50)) = true.
Proof.
  destruct (drag_follows_pointer
              (DOMRect.mk (num 100) (num 80) (num 400) (num 400))
              (DOMRect.mk (num 100) (num 80) (num 400) (num 400))
              (desktopDocument 400) (desktopDocument 400)
              (MouseEvent None (num 250) (num 240))
              (MouseEvent None (num 280) (num 200))
              (initialState initialStore)
              (num 250) (num 240) (num 280) (num 200)
              eq_refl eq_refl eq_refl eq_refl eq_refl eq_refl)
    as ((st1 & Hs & Hm) & Hmono).
  split.
  - exists st1. split; [exact Hs|].
    etransitivity; [exact Hm|]. do 2 f_equal; try js_compute.
  - exact (proj1 (Hmono (num 300) (num 200)
                        eq_refl eq_refl eq_refl eq_refl eq_refl eq_refl)).
Defined.

End ResizeMore.

Module StoreMore.
Import JS.

(** X10: two successive [updateCropBox] calls amount to one call with the
    second argument laid over the first; consequently an update repeated
    is an update made once, and the empty update changes nothing. *)
Theorem updateCropBox_compose (u1 u2 : PartialCropBox) (s : PicCutStore) :
  updateCropBox u2 (updateCropBox u1 s) = updateCropBox (overlay u1 u2) s
  /\ updateCropBox u1 (updateCropBox u1 s) = updateCropBox u1 s
  /\ updateCropBox (mkPartial None None None None) s = s.
Proof.
  destruct u1 as [[a|] [b|] [c|] [d|]], u2 as [[a'|] [b'|] [c'|] [d'|]],
    s as [[bx b_y bw bh] img]; repeat split.
Qed.

(** X11: in the grid table every entry is square, with between 2 and 5
    rows, its [total] is rows times columns, and no two sizes share an
    entry. *)
Theorem gridConfigs_consistent (size size' : Grid.GridSize) :
  let g := Grid.gridConfigs size in
  (Grid.total g = Grid.rows g * Grid.cols g)%Z
  /\ Grid.rows g = Grid.cols g
  /\ (2 <= Grid.rows g <= 5)%Z
  /\ (Grid.gridConfigs size = Grid.gridConfigs size' -> size = size').
Proof.
  destruct size; cbn; repeat split; try lia;
    destruct size'; cbn; intros E; try reflexivity; discriminate E.
Qed.

Lemma gridConfigs_consistent_witness :
  Grid.total (Grid.gridConfigs Grid.g4x4) = 16%Z
  /\ (Grid.gridConfigs Grid.g4x4 = Grid.gridConfigs Grid.g4x4 -> Grid.g4x4 = Grid.g4x4).
Proof.
  destruct (gridConfigs_consistent Grid.g4x4 Grid.g4x4) as (Ht & _ & _ & Hinj).
  split; [rewrite Ht; reflexivity | exact Hinj].
Defined.

End StoreMore.

Module ValidationMore.
Import Validation.
Local Open Scope string_scope.
Local Open Scope Z_scope.

Lemma signatureMatches_prefix (expected bytes : list Z) (i : nat) :
  signatureMatches bytes i expected = true ->
  firstn (List.length expected) (skipn i bytes) = expected.
Proof.
  revert i. induction expected as [|e rest IH]; intros i H; [reflexivity|].
  cbn [signatureMatches] in H.
  destruct (nth_error bytes i) as [b|] eqn:En; [|discriminate H].
  destruct (Z.eqb_spec b e) as [->|]; [|discriminate H].
  apply IH in H.
  assert (Es : skipn i bytes = e :: skipn (S i) bytes).
  { clear - En. revert bytes En. induction i as [|i IHi]; intros [|c bytes] En;
      try discriminate En.
    - injection En as ->. reflexivity.
    - cbn [nth_error] in En. cbn [skipn]. rewrite (IHi bytes En). reflexivity. }
  rewrite Es. cbn [List.length firstn]. rewrite H. reflexivity.
Qed.

(** X12: a file that [validateFile] accepts has one of the four supported
    types, a size between 100 bytes and 5 MB, a name without a dangerous
    character or extension, was read without error, and its content
    begins with the signature registered for its type. *)
Theorem validateFile_accepts (file : File) :
  validateFile file = None ->
  In (fileType file) supportedTypes
  /\ 100 <= fileSize file <= 5242880
  /\ existsb dangerousChar (fileName file) = false
  /\ dangerousExtension (fileName file) = false
  /\ readFails file = false
  /\ exists signature,
       fileSignatures (fileType file) = Some signature
       /\ firstn (List.length signature) (fileBytes file) = signature.
Proof.
  unfold validateFile.
  destruct (existsb (String.eqb (fileType file)) supportedTypes) eqn:Et;
    [|discriminate].
  destruct (fileSize file >? maxFileSize) eqn:Emax; [discriminate|].
  destruct (fileSize file <? 100) eqn:Emin; [discriminate|].
  destruct (validateFileName (fileName file)) eqn:En; [|discriminate].
  destruct (checkFileSignature file) eqn:Es; [|discriminate].
  intros _.
  apply existsb_exists in Et. destruct Et as (ty & Hin & Heq).
  apply String.eqb_eq in Heq. subst ty.
  unfold validateFileName in En. apply andb_true_iff in En.
  destruct En as [En1 En2]. apply negb_true_iff in En1, En2.
  unfold checkFileSignature in Es.
  destruct (readFails file); [discriminate Es|].
  destruct (fileSignatures (fileType file)) as [signature|] eqn:Esig;
    [|discriminate Es].
  apply signatureMatches_prefix in Es. cbn [skipn] in Es.
  assert (Hlen : (List.length signature <= 12)%nat).
  { unfold fileSignatures in Esig.
    repeat match type of Esig with
    | (if ?c then _ else _) = _ => destruct c
    end; try discriminate Esig; injection Esig as <-; cbn; lia. }
  rewrite firstn_firstn in Es.
  rewrite Nat.min_l in Es by exact Hlen.
  unfold maxFileSize in Emax.
  repeat split; try assumption; try lia.
  exists signature. split; [reflexivity | exact Es].
Qed.

Lemma validateFile_accepts_witness :
  100 <= fileSize pngFile <= 5242880
  /\ firstn 4 (fileBytes pngFile) = [0x89; 0x50; 0x4E; 0x47].
Proof.
  destruct (validateFile_accepts pngFile eq_refl)
    as (_ & Hsize & _ & _ & _ & signature & Hsig & Hprefix).
  injection Hsig as <-. split; assumption.
Defined.

End ValidationMore.

Module NameMore.
Import Validation.
Local Open Scope string_scope.
Local Open Scope Z_scope.

Lemma unitsEqb_refl (l : list Z) : unitsEqb l l = true.
Proof.
  induction l as [|c l IH]; [reflexivity|].
  cbn [unitsEqb]. rewrite Z.eqb_refl. exact IH.
Qed.

(** Only the last [length tail] code units matter to a suffix that short. *)
Lemma endsWith_app (front tail suffix : list Z) :
  (List.length suffix <= List.length tail)%nat ->
  endsWith (front ++ tail)%list suffix = endsWith tail suffix.
Proof.
  intros Hlen. unfold endsWith. f_equal.
  rewrite length_app, skipn_app.
  replace (List.length front + List.length tail - List.length suffix)%nat
    with (List.length front + (List.length tail - List.length suffix))%nat by lia.
  rewrite skipn_all2 by lia.
  replace (List.length front + (List.length tail - List.length suffix)
           - List.length front)%nat
    with (List.length tail - List.length suffix)%nat by lia.
  reflexivity.
Qed.

Lemma endsWith_self (front suffix : list Z) :
  endsWith (front ++ suffix)%list suffix = true.
Proof.
  rewrite endsWith_app by lia. unfold endsWith.
  rewrite Nat.sub_diag. apply unitsEqb_refl.
Qed.

(** X13: the extension test of [validateFileName] ignores letter case and
    looks only at the end of the name.  A name that ends with a dot and a
    dangerous extension in any mix of cases is rejected; a name without
    dangerous characters that ends with an image extension is accepted,
    whatever comes before, an inner dangerous extension included. *)
Theorem validateFileName_extension (name variant : list Z) (ext : string) :
  (In ext dangerousExtensionList ->
   map foldCase variant = units ext ->
   validateFileName (name ++ units "." ++ variant)%list = false)
  /\ (In ext imageExtensions ->
      existsb dangerousChar name = false ->
      validateFileName (name ++ units ("." ++ ext))%list = true).
Proof.
  split.
  - intros Hin Hfold. unfold validateFileName.
    apply andb_false_iff. right. apply negb_false_iff.
    unfold dangerousExtension. apply existsb_exists.
    exists ext. split; [exact Hin|].
    rewrite !map_app, Hfold.
    change (map foldCase (units ".") ++ units ext)%list with (units ("." ++ ext)).
    apply endsWith_self.
  - intros Hin Hsafe. unfold validateFileName.
    apply andb_true_iff. split; apply negb_true_iff.
    + rewrite existsb_app, Hsafe.
      cbn in Hin. destruct Hin as [<-|[<-|[<-|[<-|[<-|[]]]]]]; reflexivity.
    + unfold dangerousExtension. rewrite map_app.
      apply not_true_is_false. intros H.
      apply existsb_exists in H. destruct H as (bad & Hbad & Hends).
      cbn in Hin, Hbad.
      destruct Hin as [<-|[<-|[<-|[<-|[<-|[]]]]]];
        repeat (destruct Hbad as [<-|Hbad];
                [rewrite endsWith_app in Hends by (cbn; lia); discriminate Hends|]);
        exact Hbad.
Qed.

Lemma validateFileName_extension_witness :
  validateFileName (units "setup" ++ units "." ++ units "ExE")%list = false
  /\ validateFileName (units "report.exe" ++ units ".png")%list = true.
Proof.
  destruct (validateFileName_extension (units "setup") (units "ExE") "exe") as [Hbad _].
  destruct (validateFileName_extension (units "report.exe") [] "png") as [_ Hgood].
  split.
  - apply Hbad; [cbn; auto | reflexivity].
  - apply Hgood; [cbn; auto | reflexivity].
Defined.

End NameMore.

Module DimensionMore.
Import JS Validation.
Local Open Scope js_scope.

Lemma Qdiv_le_mul (a b c : Q) : (0 < c -> a / c <= b -> a <= b * c)%Q.
Proof.
  intros Hc H.
  setoid_replace a with ((a / c) * c)%Q by (field; lra).
  apply Qmult_le_compat_r; lra.
Qed.

(** X14: dimensions that are not NaN and that the [onload] handler of
    [getImageDimensions] resolves with are finite, lie between 10 and 8000
    on both sides, and neither side is more than 50 times the other. *)
Theorem getImageDimensions_resolves (width height : number) (r : number * number) :
  isNaN width = false ->
  isNaN height = false ->
  getImageDimensions width height = inr r ->
  r = (width, height)
  /\ (num 10 <=? width) = true /\ (width <=? num 8000) = true
  /\ (num 10 <=? height) = true /\ (height <=? num 8000) = true
  /\ (width <=? num 50 * height) = true
  /\ (height <=? num 50 * width) = true.
Proof.
  unfold getImageDimensions, maxImageWidth, maxImageHeight, minImageWidth,
    minImageHeight.
  intros Hw Hh.
  destruct ((width >? num 8000) || (height >? num 8000)) eqn:Ebig; [discriminate|].
  destruct ((width <? num 10) || (height <? num 10)) eqn:Esmall; [discriminate|].
  apply orb_false_iff in Ebig, Esmall.
  destruct Ebig as [Eb1 Eb2], Esmall as [Es1 Es2].
  destruct width as [| |w|]; try discriminate;
    destruct height as [| |h|]; try discriminate.
  cbn [gtb ltb of_Z] in Eb1, Eb2, Es1, Es2.
  apply Qc_ltb_false in Eb1, Eb2, Es1, Es2.
  rewrite Qc_this_of_Z in Eb1, Eb2, Es1, Es2. unfold inject_Z in *.
  assert (Hratio :
    forall big small : Qc,
      (10 # 1 <= small)%Q ->
      (Fin big / Fin small >? num 50) = false ->
      (big <= (50 # 1) * small)%Q).
  { intros big small Hs H. cbn [div] in H.
    destruct (Qc_eqb small 0) eqn:E0.
    - apply Qc_eqb_true in E0. change (this 0%Qc) with 0%Q in E0. lra.
    - cbn [gtb ltb of_Z] in H. apply Qc_ltb_false in H.
      rewrite Qc_this_div, Qc_this_of_Z in H. unfold inject_Z in H.
      apply Qdiv_le_mul in H; lra. }
  destruct (Math.max (Fin w) (Fin h) / Math.min (Fin w) (Fin h) >? num 50) eqn:Er;
    [discriminate|].
  intros E. injection E as <-.
  assert (Hwh : (w <= (50 # 1) * h)%Q /\ (h <= (50 # 1) * w)%Q).
  { revert Er. cbn [Math.max Math.min ltb].
    destruct (Qc_ltb w h) eqn:E1; destruct (Qc_ltb h w) eqn:E2;
      intros Er; apply Hratio in Er; try assumption;
      try apply Qc_ltb_true in E1; try apply Qc_ltb_true in E2;
      try apply Qc_ltb_false in E1; try apply Qc_ltb_false in E2;
      split; lra. }
  destruct Hwh as [Hwh1 Hwh2].
  cbn [leb mul of_Z]. unfold Qc_leb.
  repeat split; apply Qle_bool_iff; rewrite ?Qc_this_mul, ?Qc_this_of_Z;
    unfold inject_Z; lra.
Qed.

Lemma getImageDimensions_resolves_witness :
  (num 500 <=? num 50 * num 10) = true.
Proof.
  destruct (getImageDimensions_resolves (num 10) (num 500) (num 10, num 500)
              eq_refl eq_refl eq_refl)
    as (_ & _ & _ & _ & _ & _ & H).
  exact H.
Defined.

(** An image fifty-one times as tall as it is wide is turned away although
    both sides are within bounds. *)
Example getImageDimensions_narrow :
  getImageDimensions (num 10) (num 510) = inl AbnormalAspectRatio.
Proof. reflexivity. Qed.

End DimensionMore.

Module ContainerMore.
Import JS.
Local Open Scope js_scope.

Lemma wide_window (w : number) :
  (w >=? num 1024) = true -> (w <? num 768) = false.
Proof.
  unfold of_Z. destruct w; intros; js_cases.
Qed.

Lemma middle_window (w : number) :
  (w >=? num 768) = true -> (w <? num 768) = false.
Proof.
  unfold of_Z. destruct w; intros; js_cases.
Qed.

Lemma below_desktop (w : number) :
  (w <? num 1024) = true -> (w >=? num 1024) = false.
Proof.
  unfold of_Z. destruct w; intros; js_cases.
Qed.

(** X15: the three container measurements agree only in part.  From a
    window width of 768 on, the upload measures what the desktop composable
    measures.  From 1024 on, and with the desktop container in the
    document, the image processor measures the same.  Between 768 and 1024
    the image processor measures the mobile container instead, and it
    falls back to 500 where the other two fall back to 400. *)
Theorem container_measurements (doc : Document) (s : PicCutStore) :
  ((innerWidth doc >=? num 768) = true ->
   ImageUpload.getContainerSize doc = CropBoxDesktop.getContainerSize doc)
  /\ ((innerWidth doc >=? num 1024) = true ->
      previewContainerDesktop doc <> None ->
      ImageProcessor.containerSize (ImageProcessor.getImageDisplayInfo doc s)
      = CropBoxDesktop.getContainerSize doc)
  /\ ((innerWidth doc <? num 1024) = true ->
      ImageProcessor.containerSize (ImageProcessor.getImageDisplayInfo doc s)
      = match previewContainerMobile doc with
        | Some rect => Math.min (DOMRect.width rect) (DOMRect.height rect)
        | None => num 500
        end).
Proof.
  split; [|split].
  - intros Hw. unfold ImageUpload.getContainerSize, CropBoxDesktop.getContainerSize.
    rewrite (middle_window _ Hw). reflexivity.
  - intros Hw Hc.
    unfold ImageProcessor.getImageDisplayInfo, CropBoxDesktop.getContainerSize.
    cbn [ImageProcessor.containerSize]. rewrite Hw.
    destruct (previewContainerDesktop doc); [reflexivity | contradiction].
  - intros Hw. unfold ImageProcessor.getImageDisplayInfo.
    cbn [ImageProcessor.containerSize]. rewrite (below_desktop _ Hw). reflexivity.
Qed.

Lemma container_measurements_witness :
  ImageUpload.getContainerSize tabletDocument = num 420
  /\ ImageProcessor.containerSize
       (ImageProcessor.getImageDisplayInfo tabletDocument initialStore) = num 300.
Proof.
  destruct (container_measurements tabletDocument initialStore) as (Hup & _ & Hproc).
  rewrite (Hup eq_refl), (Hproc eq_refl). split; reflexivity.
Defined.

End ContainerMore.

Section ShapeFacts.
Import JS Display.

Lemma Qc_pos_neq (a : Qc) : 0 < a -> a <> 0.
Proof.
  intros Ha ->. exact (Qlt_irrefl 0 Ha).
Qed.

Lemma two_neq_0 : 1 + 1 <> 0.
Proof. apply Qc_pos_neq. reflexivity. Qed.

Lemma half (q : Qc) : div (Fin q) (num 2) = Fin (q / (1 + 1)).
Proof. reflexivity. Qed.

(** The mapping of finite positive arguments: finite positive sides within
    the container, centred, in the proportions of the image. *)
Lemma mapping_shape (c w h : Qc) :
  0 < c -> 0 < w -> 0 < h ->
  exists dw dh ox oy : Qc,
    mapping (Fin c) (Fin w) (Fin h) = mkMapping (Fin dw) (Fin dh) (Fin ox) (Fin oy)
    /\ 0 < dw /\ 0 < dh /\ dw <= c /\ dh <= c
    /\ 0 <= ox /\ 0 <= oy
    /\ ox + ox + dw = c /\ oy + oy + dh = c
    /\ w / dw = h / dh.
Proof.
  intros Hc Hw Hh.
  pose proof (Qc_pos_neq c Hc) as Nc.
  pose proof (Qc_pos_neq w Hw) as Nw.
  pose proof (Qc_pos_neq h Hh) as Nh.
  destruct (Qclt_le_dec 1 (w / h)) as [Ha|Ha].
  - exists c, (c / (w / h)), 0, ((c - c / (w / h)) / (1 + 1)).
    assert (Hdh : c / (w / h) <= c) by (apply Qc_div_shrinks; assumption).
    assert (Pdh : 0 < c / (w / h)).
    { apply Qc_div_pos; [assumption|]. apply Qc_div_pos; assumption. }
    split; [rewrite (DisplayFacts.mapping_wide c w h Hh Ha); reflexivity|].
    repeat split; try assumption; try apply Qcle_refl.
    + unfold Qcle in *. rewrite Qc_this_div, Qc_this_sub.
      change (this 0) with 0%Q. change (this (1 + 1)) with (2 # 1)%Q.
      apply Qle_shift_div_l; lra.
    + ring.
    + field; repeat split; first [assumption | exact two_neq_0].
    + field; repeat split; first [assumption | exact two_neq_0].
  - exists (c * (w / h)), c, ((c - c * (w / h)) / (1 + 1)), 0.
    assert (Hdw : c * (w / h) <= c) by (apply Qc_mul_shrinks; assumption).
    assert (Pa : 0 < w / h) by (apply Qc_div_pos; assumption).
    assert (Pdw : 0 < c * (w / h)).
    { unfold Qclt in *. rewrite Qc_this_mul. change (this 0) with 0%Q in *. nra. }
    split; [rewrite (DisplayFacts.mapping_tall c w h Hh Ha); reflexivity|].
    repeat split; try assumption; try apply Qcle_refl.
    + unfold Qcle in *. rewrite Qc_this_div, Qc_this_sub.
      change (this 0) with 0%Q. change (this (1 + 1)) with (2 # 1)%Q.
      apply Qle_shift_div_l; lra.
    + field; repeat split; first [assumption | exact two_neq_0].
    + ring.
    + field; repeat split; first [assumption | exact two_neq_0].
Qed.

End ShapeFacts.

Module ProcessorMore.
Import JS ImageProcessor.
Local Open Scope js_scope.

(** X16: for a finite positive container size and finite positive image
    dimensions the display information divides by nothing that is zero:
    the displayed width and height are finite, positive and at most the
    container size, and both scales are finite and positive. *)
Theorem displayInfo_scale_positive (doc : Document) (s : PicCutStore) (c w h : Qc) :
  containerSize (getImageDisplayInfo doc s) = Fin c ->
  imageWidth (image s) = Fin w ->
  imageHeight (image s) = Fin h ->
  (0 < c)%Qc -> (0 < w)%Qc -> (0 < h)%Qc ->
  let info := getImageDisplayInfo doc s in
  isFinite (displayWidth info) = true
  /\ isFinite (displayHeight info) = true
  /\ (displayWidth info >? num 0) = true
  /\ (displayHeight info >? num 0) = true
  /\ (displayWidth info <=? containerSize info) = true
  /\ (displayHeight info <=? containerSize info) = true
  /\ isFinite (scaleX info) = true
  /\ isFinite (scaleY info) = true
  /\ (scaleX info >? num 0) = true
  /\ (scaleY info >? num 0) = true.
Proof.
  intros Hcs Hw Hh Pc Pw Ph info. subst info.
  unfold getImageDisplayInfo in *. cbn [containerSize] in Hcs.
  cbn [scaleX scaleY displayWidth displayHeight containerSize].
  rewrite Hcs, Hw, Hh.
  destruct (mapping_shape c w h Pc Pw Ph)
    as (dw & dh & ox & oy & Em & Pdw & Pdh & Ldw & Ldh & _).
  rewrite Em. cbn [Display.imageDisplayWidth Display.imageDisplayHeight div].
  rewrite (DisplayFacts.Qc_eqb_pos dw Pdw), (DisplayFacts.Qc_eqb_pos dh Pdh).
  cbn [isFinite gtb ltb leb of_Z]. change (Q2Qc (inject_Z 0)) with 0%Qc.
  repeat split;
    first [ apply DisplayFacts.Qc_ltb_lt; first [assumption | apply Qc_div_pos; assumption]
          | apply DisplayFacts.Qc_leb_le; assumption ].
Qed.

(** The clamp of a finite value between zero and a finite bound. *)
Lemma clamp0_fin (u v : Qc) :
  exists a : Qc,
    Math.max (num 0) (Math.min (Fin u) (Fin v)) = Fin a
    /\ (0 <= a)%Qc
    /\ (a = 0%Qc \/ (a <= u /\ a <= v)%Qc).
Proof.
  unfold of_Z. cbn [Math.max Math.min ltb].
  destruct (Qc_ltb v u) eqn:E1.
  - destruct (Qc_ltb (Q2Qc (inject_Z 0)) v) eqn:E2.
    + exists v. apply Qc_ltb_true in E1, E2. change (this (Q2Qc (inject_Z 0))) with 0%Q in E2.
      unfold Qcle. change (this 0%Qc) with 0%Q. repeat split; lra.
    + exists 0%Qc. repeat split; [apply Qcle_refl | left; reflexivity].
  - destruct (Qc_ltb (Q2Qc (inject_Z 0)) u) eqn:E2.
    + exists u. apply Qc_ltb_false in E1. apply Qc_ltb_true in E2.
      change (this (Q2Qc (inject_Z 0))) with 0%Q in E2.
      unfold Qcle. change (this 0%Qc) with 0%Q. repeat split; lra.
    + exists 0%Qc. repeat split; [apply Qcle_refl | left; reflexivity].
Qed.

(** The floor of a non-negative finite value: a non-negative integer that
    does not exceed it. *)
Lemma floor_fin (q : Qc) :
  (0 <= q)%Qc ->
  exists z : Z,
    Math.floor (Fin q) = num z /\ (0 <= z)%Z /\ (inject_Z z <= q)%Q.
Proof.
  intros Hq. exists (Qfloor q). split; [reflexivity|]. split.
  - change 0%Z with (Qfloor 0). apply Qfloor_resp_le. exact Hq.
  - apply Qfloor_le.
Qed.

(** One axis of the conversion to source pixels. *)
Lemma crop_axis (d s i off pos size : Qc) :
  (0 < d)%Qc -> (0 < s)%Qc -> (d * s = i)%Qc -> (0 <= size)%Qc ->
  let clamped := Math.max (num 0) (Math.min (Fin pos - Fin off) (Fin d - Fin size)) in
  let clampedSize := Math.max (num 0) (Math.min (Fin size) (Fin d - clamped)) in
  let p := Math.floor (clamped * Fin s) in
  let q := Math.floor (clampedSize * Fin s) in
  (num 0 <=? p) = true /\ (num 0 <=? q) = true /\ (p + q <=? Fin i) = true.
Proof.
  intros Pd Ps Ei Psize clamped clampedSize p q.
  subst p q clampedSize clamped. cbn [sub add neg].
  destruct (clamp0_fin (pos + - off) (d + - size)) as (a & Ea & Pa & Ha).
  rewrite Ea. cbn [sub add neg].
  destruct (clamp0_fin size (d + - a)) as (b & Eb & Pb & Hb).
  rewrite Eb. cbn [mul].
  assert (Hab : (this a + this b <= this d)%Q).
  { unfold Qcle, Qclt in *. change (this 0%Qc) with 0%Q in *.
    destruct Ha as [->|[_ Ha]], Hb as [->|[_ Hb]];
      rewrite ?Qc_this_add, ?Qc_this_opp in *;
      change (this 0%Qc) with 0%Q in *; lra. }
  assert (Pas : (0 <= a * s)%Qc).
  { unfold Qcle, Qclt in *. rewrite Qc_this_mul. change (this 0%Qc) with 0%Q in *. nra. }
  assert (Pbs : (0 <= b * s)%Qc).
  { unfold Qcle, Qclt in *. rewrite Qc_this_mul. change (this 0%Qc) with 0%Q in *. nra. }
  destruct (floor_fin (a * s) Pas) as (zp & Ep & Pzp & Hzp).
  destruct (floor_fin (b * s) Pbs) as (zq & Eq & Pzq & Hzq).
  rewrite Ep, Eq. cbn [leb add of_Z]. unfold Qc_leb.
  rewrite !Qle_bool_iff, Qc_this_add, !Qc_this_of_Z.
  rewrite Qc_this_mul in Hzp, Hzq.
  assert (Ei' : (this d * this s == this i)%Q).
  { rewrite <- Ei, Qc_this_mul. reflexivity. }
  unfold Qcle, Qclt in *. change (this 0%Qc) with 0%Q in *.
  repeat split.
  - rewrite <- Zle_Qle. exact Pzp.
  - rewrite <- Zle_Qle. exact Pzq.
  - revert Hzp Hzq. generalize (inject_Z zp) (inject_Z zq). intros ip iq Hip Hiq.
    rewrite <- Ei'. nra.
Qed.

(** X17: for a finite positive container size and finite positive image
    dimensions, the rectangle that [actualCropBox] computes from a crop box
    with finite fields and non-negative width and height has non-negative
    fields and lies inside the image. *)
Theorem actualCropBox_inside_image (doc : Document) (s : PicCutStore)
    (c w h bx b_y bw bh : Qc) :
  containerSize (getImageDisplayInfo doc s) = Fin c ->
  imageWidth (image s) = Fin w ->
  imageHeight (image s) = Fin h ->
  (0 < c)%Qc -> (0 < w)%Qc -> (0 < h)%Qc ->
  (0 <= bw)%Qc -> (0 <= bh)%Qc ->
  let r := actualCropBox (getImageDisplayInfo doc s)
                         (mkCropBox (Fin bx) (Fin b_y) (Fin bw) (Fin bh)) in
  (num 0 <=? x r) = true
  /\ (num 0 <=? y r) = true
  /\ (num 0 <=? width r) = true
  /\ (num 0 <=? height r) = true
  /\ (x r + width r <=? imageWidth (image s)) = true
  /\ (y r + height r <=? imageHeight (image s)) = true.
Proof.
  intros Hcs Hw Hh Pc Pw Ph Pbw Pbh r. subst r.
  unfold getImageDisplayInfo in *. cbn [containerSize] in Hcs.
  unfold actualCropBox.
  cbn [scaleX scaleY displayWidth displayHeight offsetX offsetY x y width height].
  rewrite Hcs, Hw, Hh.
  destruct (mapping_shape c w h Pc Pw Ph)
    as (dw & dh & ox & oy & Em & Pdw & Pdh & _ & _ & _ & _ & _ & _ & Escale).
  rewrite Em.
  cbn [Display.imageDisplayWidth Display.imageDisplayHeight Display.offsetX
       Display.offsetY div].
  rewrite (DisplayFacts.Qc_eqb_pos dw Pdw), (DisplayFacts.Qc_eqb_pos dh Pdh).
  assert (Psx : (0 < w / dw)%Qc) by (apply Qc_div_pos; assumption).
  assert (Psy : (0 < h / dh)%Qc) by (apply Qc_div_pos; assumption).
  assert (Ex : (dw * (w / dw) = w)%Qc) by (field; apply Qc_pos_neq; assumption).
  assert (Ey : (dh * (h / dh) = h)%Qc) by (field; apply Qc_pos_neq; assumption).
  destruct (crop_axis dw (w / dw) w ox bx bw Pdw Psx Ex Pbw) as (X0 & W0 & XW).
  destruct (crop_axis dh (h / dh) h oy b_y bh Pdh Psy Ey Pbh) as (Y0 & H0 & YH).
  repeat split; assumption.
Qed.

Lemma displayInfo_scale_positive_witness :
  let info := getImageDisplayInfo (desktopDocument 500) (imageStore 1000 500) in
  isFinite (scaleY info) = true /\ (displayHeight info >? num 0) = true.
Proof.
  intros info.
  destruct (displayInfo_scale_positive (desktopDocument 500) (imageStore 1000 500)
              (Q2Qc (inject_Z 500)) (Q2Qc (inject_Z 1000)) (Q2Qc (inject_Z 500))
              eq_refl eq_refl eq_refl eq_refl eq_refl eq_refl)
    as (_ & _ & _ & Hpos & _ & _ & _ & Hfin & _).
  split; assumption.
Defined.

(** The scenario of a 1000 x 500 image in a 500 px container: the box
    {100, 100, 200, 100} overlaps the upper letterbox bar and is cropped
    from the top edge of the image. *)
Example actualCropBox_standard_crop :
  actualCropBox (getImageDisplayInfo (desktopDocument 500) (imageStore 1000 500))
                (box 100 100 200 100)
  = box 200 0 400 200.
Proof. js_compute. Qed.

Lemma actualCropBox_inside_image_witness :
  let r := actualCropBox (getImageDisplayInfo (desktopDocument 500) (imageStore 1000 500))
                         (box 450 100 200 100) in
  (x r + width r <=? num 1000) = true /\ (y r + height r <=? num 500) = true.
Proof.
  intros r.
  destruct (actualCropBox_inside_image (desktopDocument 500) (imageStore 1000 500)
              (Q2Qc (inject_Z 500)) (Q2Qc (inject_Z 1000)) (Q2Qc (inject_Z 500))
              (Q2Qc (inject_Z 450)) (Q2Qc (inject_Z 100))
              (Q2Qc (inject_Z 200)) (Q2Qc (inject_Z 100))
              eq_refl eq_refl eq_refl eq_refl eq_refl eq_refl
              ltac:(discriminate) ltac:(discriminate))
    as (_ & _ & _ & _ & HX & HY).
  split; assumption.
Defined.

End ProcessorMore.

Module GridMore.
Import JS ImageProcessor.
Local Open Scope js_scope.

Lemma loopIndices_length (n : Z) : List.length (loopIndices n) = Z.to_nat (n - 1).
Proof.
  unfold loopIndices. rewrite length_map, length_seq. reflexivity.
Qed.

(** X18: [createGridPuzzle] fills one band per inner grid boundary:
    first cols - 1 bands of full height and of the line width, then
    rows - 1 bands of full width and of the line width as height; a grid
    with at most one row and one column gets none. *)
Theorem drawGridLines_bands (g : Grid.GridConfig) (lineWidth targetWidth targetHeight : number) :
  let lines := drawGridLines g lineWidth targetWidth targetHeight in
  let vertical := Z.to_nat (Grid.cols g - 1) in
  let horizontal := Z.to_nat (Grid.rows g - 1) in
  List.length lines = (vertical + horizontal)%nat
  /\ Forall (verticalBand lineWidth targetHeight) (firstn vertical lines)
  /\ Forall (horizontalBand lineWidth targetWidth) (skipn vertical lines)
  /\ ((Grid.cols g <= 1)%Z -> (Grid.rows g <= 1)%Z -> lines = []).
Proof.
  intros lines vertical horizontal. subst lines. unfold drawGridLines.
  set (vs := map _ (loopIndices (Grid.cols g))).
  set (hs := map _ (loopIndices (Grid.rows g))).
  assert (Lv : List.length vs = vertical).
  { subst vs. rewrite length_map. apply loopIndices_length. }
  assert (Lh : List.length hs = horizontal).
  { subst hs. rewrite length_map. apply loopIndices_length. }
  split; [rewrite length_app, Lv, Lh; reflexivity|].
  split; [|split].
  - rewrite <- Lv, firstn_app, Nat.sub_diag, firstn_all. cbn [firstn].
    rewrite app_nil_r. subst vs. apply Forall_forall. intros r Hr.
    apply in_map_iff in Hr. destruct Hr as (i & <- & _). repeat split.
  - rewrite <- Lv, skipn_app, Nat.sub_diag, skipn_all. cbn [skipn app].
    subst hs. apply Forall_forall. intros r Hr.
    apply in_map_iff in Hr. destruct Hr as (i & <- & _). repeat split.
  - intros Hc Hr.
    assert (Ev : vertical = 0%nat) by (subst vertical; lia).
    assert (Eh : horizontal = 0%nat) by (subst horizontal; lia).
    rewrite Ev in Lv. rewrite Eh in Lh.
    apply length_zero_iff_nil in Lv, Lh. rewrite Lv, Lh. reflexivity.
Qed.

Lemma drawGridLines_bands_witness :
  drawGridLines (Grid.mkGridConfig 1 1 1) (num 6) (num 400) (num 200) = [].
Proof.
  apply (drawGridLines_bands (Grid.mkGridConfig 1 1 1) (num 6) (num 400) (num 200));
    cbn; lia.
Defined.

(** The 2 x 2 grid on a 400 x 200 canvas with a 6 px line: one vertical
    band centred on x = 200 and one horizontal band centred on y = 100. *)
Example drawGridLines_2x2 :
  drawGridLines (Grid.gridConfigs Grid.g2x2) (num 6) (num 400) (num 200)
  = [mkRect (num 197) (num 0) (num 6) (num 200);
     mkRect (num 0) (num 97) (num 400) (num 6)].
Proof. js_compute. Qed.

End GridMore.

Module ResetMore.
Import JS CropBoxDesktop.
Local Open Scope js_scope.





End ResetMore.

Section ValidBoxes.
Import JS CropBoxDesktop.
Local Open Scope js_scope.

(** A square box of finite side and offset that fits a finite container is
    a fixed point of [constrainCropBox]. *)
Lemma constrainCropBox_fixes_fin (doc : Document) (c bx b_y bw bh : Qc) :
  getContainerSize doc = Fin c ->
  (50 # 1 <= bw)%Q -> (bw <= c)%Q -> (0 <= bx)%Q -> (bx + bw <= c)%Q ->
  (50 # 1 <= bh)%Q -> (bh <= c)%Q -> (0 <= b_y)%Q -> (b_y + bh <= c)%Q ->
  constrainCropBox doc (mkCropBox (Fin bx) (Fin b_y) (Fin bw) (Fin bh))
  = mkCropBox (Fin bx) (Fin b_y) (Fin bw) (Fin bh).
Proof.
  intros Hc W1 W2 X1 X2 H1 H2 Y1 Y2.
  unfold constrainCropBox. rewrite Hc. cbn [x y width height].
  destruct (constrain_axis_valid (Fin c) (Fin bw) (Fin bx)) as [Ew Ex];
    try (cbn [leb sub add neg minSize of_Z]; apply Qle_bool_iff;
         rewrite ?Qc_this_add, ?Qc_this_opp, ?Qc_this_of_Z; unfold inject_Z; lra).
  destruct (constrain_axis_valid (Fin c) (Fin bh) (Fin b_y)) as [Eh Ey];
    try (cbn [leb sub add neg minSize of_Z]; apply Qle_bool_iff;
         rewrite ?Qc_this_add, ?Qc_this_opp, ?Qc_this_of_Z; unfold inject_Z; lra).
  rewrite Ex, Ey, Ew, Eh. reflexivity.
Qed.

(** The larger of a finite number and a finite value, as a finite value. *)
Lemma max_fin (lo v : Qc) :
  exists m : Qc,
    Math.max (Fin lo) (Fin v) = Fin m
    /\ (lo <= m)%Q /\ (v <= m)%Q /\ (m == lo \/ m == v)%Q.
Proof.
  cbn [Math.max ltb]. destruct (Qc_ltb lo v) eqn:E.
  - exists v. apply Qc_ltb_true in E. repeat split; lra.
  - exists lo. apply Qc_ltb_false in E. repeat split; lra.
Qed.

End ValidBoxes.

Module ValidMore.
Import JS CropBoxDesktop Spec.
Local Open Scope js_scope.

(** The default box of the self-healing guard in a finite container of
    at least MIN_SIZE: a square that fits. *)
Lemma resetBox_shape (doc : Document) (c : Qc) :
  getContainerSize doc = Fin c ->
  (50 # 1 <= c)%Q ->
  exists side offset : Qc,
    resetBox doc = mkCropBox (Fin offset) (Fin offset) (Fin side) (Fin side)
    /\ (50 # 1 <= side)%Q /\ (side <= c)%Q
    /\ (0 <= offset)%Q /\ (offset + side <= c)%Q.
Proof.
  intros Hc Hmin.
  assert (Es : exists side : Qc,
             Math.max minSize (Math.floor (Fin c * of_Q (3 # 10))) = Fin side
             /\ (50 # 1 <= side)%Q /\ (side <= c)%Q).
  { change (Math.floor (Fin c * of_Q (3 # 10)))
      with (Fin (Q2Qc (inject_Z (Qfloor (c * Q2Qc (3 # 10))%Qc)))).
    assert (F : (inject_Z (Qfloor (c * Q2Qc (3 # 10))%Qc) <= c * (3 # 10))%Q).
    { eapply Qle_trans; [apply Qfloor_le|]. rewrite Qc_this_mul. apply Qle_refl. }
    revert F. generalize (Qfloor (c * Q2Qc (3 # 10))%Qc). intros z F.
    unfold minSize, of_Z.
    destruct (max_fin (Q2Qc (inject_Z 50)) (Q2Qc (inject_Z z))) as (side & E & S1 & _ & S3).
    exists side. split; [exact E|].
    rewrite !Qc_this_of_Z in *. revert F S3. generalize (inject_Z z). intros q F S3.
    unfold inject_Z in *. split; [exact S1|].
    destruct S3 as [S3|S3]; rewrite S3; lra. }
  destruct Es as (side & Es & S1 & S2).
  assert (Eo : exists offset : Qc,
             Math.max (num 0) (Math.floor ((Fin c - Fin side) / num 2)) = Fin offset
             /\ (0 <= offset)%Q /\ (offset + side <= c)%Q).
  { change (Math.floor ((Fin c - Fin side) / num 2))
      with (Fin (Q2Qc (inject_Z (Qfloor ((c + - side) / Q2Qc (inject_Z 2))%Qc)))).
    assert (F : (inject_Z (Qfloor ((c + - side) / Q2Qc (inject_Z 2))%Qc)
                 <= (c - side) * (1 # 2))%Q).
    { eapply Qle_trans; [apply Qfloor_le|].
      rewrite Qc_this_div, Qc_this_add, Qc_this_opp. apply Qle_refl. }
    revert F. generalize (Qfloor ((c + - side) / Q2Qc (inject_Z 2))%Qc). intros z F.
    unfold of_Z.
    destruct (max_fin (Q2Qc (inject_Z 0)) (Q2Qc (inject_Z z))) as (offset & E & O1 & _ & O3).
    exists offset. split; [exact E|].
    rewrite !Qc_this_of_Z in *. revert F O3. generalize (inject_Z z). intros q F O3.
    unfold inject_Z in *. split; [exact O1|].
    destruct O3 as [O3|O3]; rewrite O3; lra. }
  destruct Eo as (offset & Eo & O1 & O2).
  exists side, offset.
  split; [|repeat split; assumption].
  unfold resetBox. rewrite Hc. cbv zeta. rewrite Es, Eo. reflexivity.
Qed.

(** X20: in a finite container of at least MIN_SIZE the default box of the
    self-healing guard satisfies the crop-box invariant: [constrainCropBox]
    returns it unchanged. *)
Theorem resetBox_valid (doc : Document) :
  isFinite (getContainerSize doc) = true ->
  (minSize <=? getContainerSize doc) = true ->
  constrainCropBox doc (resetBox doc) = resetBox doc.
Proof.
  intros Hfin Hmin.
  destruct (getContainerSize doc) as [| |c|] eqn:Hc; try discriminate Hfin.
  cbn [leb minSize of_Z] in Hmin. apply Qc_leb_true in Hmin.
  rewrite Qc_this_of_Z in Hmin. unfold inject_Z in Hmin.
  destruct (resetBox_shape doc c Hc Hmin) as (side & offset & E & S1 & S2 & O1 & O2).
  rewrite E. apply (constrainCropBox_fixes_fin doc c); assumption.
Qed.

Lemma resetBox_valid_witness :
  constrainCropBox (desktopDocument 333) (resetBox (desktopDocument 333))
  = resetBox (desktopDocument 333).
Proof.
  apply (resetBox_valid (desktopDocument 333)); reflexivity.
Defined.

(** X21: [resetCropBox] commits its 60% square without clamping.  In a
    finite container of at least 84 px the square satisfies the crop-box
    invariant; in a container below 83 px its side is below MIN_SIZE. *)
Theorem resetCropBox_valid (doc : Document) (st : State) :
  isFinite (getContainerSize doc) = true ->
  let b := cropBox (store (resetCropBox doc st)) in
  ((num 84 <=? getContainerSize doc) = true -> constrainCropBox doc b = b)
  /\ ((getContainerSize doc <? num 83) = true -> (width b <? minSize) = true).
Proof.
  intros Hfin b. subst b.
  destruct (getContainerSize doc) as [| |c|] eqn:Hc; try discriminate Hfin.
  unfold resetCropBox. rewrite Hc. cbv zeta.
  change (Math.floor (Fin c * of_Q (6 # 10)))
    with (Fin (Q2Qc (inject_Z (Qfloor (c * Q2Qc (6 # 10))%Qc)))).
  assert (F1 : (inject_Z (Qfloor (c * Q2Qc (6 # 10))%Qc) <= c * (3 # 5))%Q).
  { eapply Qle_trans; [apply Qfloor_le|]. rewrite Qc_this_mul. apply Qle_refl. }
  assert (G1 : (50 # 1 <= c * (3 # 5) ->
                50 # 1 <= inject_Z (Qfloor (c * Q2Qc (6 # 10))%Qc))%Q).
  { intros H. change (50 # 1)%Q with (inject_Z 50). rewrite <- Zle_Qle.
    change 50%Z with (Qfloor (inject_Z 50)). apply Qfloor_resp_le.
    rewrite Qc_this_mul. exact H. }
  revert F1 G1. generalize (Qfloor (c * Q2Qc (6 # 10))%Qc). intros z1 F1 G1.
  change (Math.floor ((Fin c - Fin (Q2Qc (inject_Z z1))) / num 2))
    with (Fin (Q2Qc (inject_Z
            (Qfloor ((c + - Q2Qc (inject_Z z1)) / Q2Qc (inject_Z 2))%Qc)))).
  assert (F2 : (inject_Z (Qfloor ((c + - Q2Qc (inject_Z z1)) / Q2Qc (inject_Z 2))%Qc)
                <= (c - inject_Z z1) * (1 # 2))%Q).
  { eapply Qle_trans; [apply Qfloor_le|].
    rewrite Qc_this_div, Qc_this_add, Qc_this_opp, Qc_this_of_Z. apply Qle_refl. }
  assert (G2 : (0 <= (c - inject_Z z1) * (1 # 2) ->
                0 <= inject_Z (Qfloor ((c + - Q2Qc (inject_Z z1))
                                       / Q2Qc (inject_Z 2))%Qc))%Q).
  { intros H. change 0%Q with (inject_Z 0). rewrite <- Zle_Qle.
    change 0%Z with (Qfloor (inject_Z 0)). apply Qfloor_resp_le.
    rewrite Qc_this_div, Qc_this_add, Qc_this_opp, Qc_this_of_Z. exact H. }
  revert F2 G2.
  generalize (Qfloor ((c + - Q2Qc (inject_Z z1)) / Q2Qc (inject_Z 2))%Qc).
  intros z2 F2 G2.
  cbn [set_store store updateCropBox allFields cropBox spread
       x_opt y_opt width_opt height_opt x y width height].
  split.
  - intros H84. cbn [leb of_Z] in H84. apply Qc_leb_true in H84.
    rewrite Qc_this_of_Z in H84. unfold inject_Z in H84.
    apply (constrainCropBox_fixes_fin doc c); try exact Hc;
      rewrite ?Qc_this_of_Z;
      revert F1 G1 F2 G2; generalize (inject_Z z1) (inject_Z z2);
      intros q1 q2 F1 G1 F2 G2;
      assert (P1 : (50 # 1 <= q1)%Q) by (apply G1; lra);
      assert (P2 : (0 <= q2)%Q) by (apply G2; lra);
      lra.
  - intros H83. cbn [ltb of_Z] in H83. apply Qc_ltb_true in H83.
    rewrite Qc_this_of_Z in H83. unfold inject_Z in H83.
    cbn [ltb minSize of_Z]. apply Qc_ltb_true. rewrite !Qc_this_of_Z.
    revert F1. generalize (inject_Z z1). intros q1 F1. unfold inject_Z. lra.
Qed.

Lemma resetCropBox_valid_witness :
  let b := cropBox (store (resetCropBox (desktopDocument 400) (initialState initialStore))) in
  constrainCropBox (desktopDocument 400) b = b.
Proof.
  intros b.
  destruct (resetCropBox_valid (desktopDocument 400) (initialState initialStore) eq_refl)
    as [Hbig _].
  exact (Hbig eq_refl).
Defined.

(** In a 60 px container the 60% square is 36 px wide. *)
Example resetCropBox_small_container :
  cropBox (store (resetCropBox (desktopDocument 60) (initialState initialStore)))
  = box 12 12 36 36.
Proof. js_compute. Qed.

(** X22: with an image of finite positive dimensions in a finite container
    of at least 104 px, the box that [adjustCropBoxToImage] commits
    satisfies the crop-box invariant: [constrainCropBox] returns it
    unchanged. *)
Theorem adjustCropBoxToImage_valid (doc : Document) (st : State) (w h : Qc) :
  hasImage (store st) = true ->
  imageWidth (image (store st)) = Fin w ->
  imageHeight (image (store st)) = Fin h ->
  (0 < w)%Qc -> (0 < h)%Qc ->
  isFinite (getContainerSize doc) = true ->
  (num 104 <=? getContainerSize doc) = true ->
  let b := cropBox (store (adjustCropBoxToImage doc st)) in
  constrainCropBox doc b = b.
Proof.
  intros Himg Hw Hh Pw Ph Hfin H104 b. subst b.
  destruct (getContainerSize doc) as [| |c|] eqn:Hc; try discriminate Hfin.
  cbn [leb of_Z] in H104. apply Qc_leb_true in H104.
  rewrite Qc_this_of_Z in H104. unfold inject_Z in H104.
  assert (Pc : (0 < c)%Qc).
  { unfold Qclt. change (this 0%Qc) with 0%Q. lra. }
  unfold adjustCropBoxToImage. rewrite Himg, Hc, Hw, Hh. cbv zeta. cbn [negb].
  destruct (mapping_shape c w h Pc Pw Ph)
    as (dw & dh & ox & oy & Em & Pdw & Pdh & Ldw & Ldh & Pox & Poy & Cx & Cy & _).
  rewrite Em.
  cbn [Display.offsetX Display.offsetY Display.imageDisplayWidth
       Display.imageDisplayHeight add sub mul neg of_Z minSize].
  destruct (max_fin (Q2Qc (inject_Z 0)) (ox + Q2Qc (inject_Z 2))%Qc)
    as (bx & Ex & X1 & X2 & X3).
  destruct (max_fin (Q2Qc (inject_Z 0)) (oy + Q2Qc (inject_Z 2))%Qc)
    as (b_y & Ey & Y1 & Y2 & Y3).
  destruct (max_fin (Q2Qc (inject_Z 50))
                    (dw + - (Q2Qc (inject_Z 2) * Q2Qc (inject_Z 2)))%Qc)
    as (bw & Ew & W1 & W2 & W3).
  destruct (max_fin (Q2Qc (inject_Z 50))
                    (dh + - (Q2Qc (inject_Z 2) * Q2Qc (inject_Z 2)))%Qc)
    as (bh & Eh & H1 & H2 & H3).
  unfold minSize, of_Z. rewrite Ex, Ey, Ew, Eh.
  cbn [set_store store updateCropBox allFields cropBox spread
       x_opt y_opt width_opt height_opt x y width height].
  assert (Cx' : (this ox + this ox + this dw == this c)%Q).
  { rewrite <- Cx, !Qc_this_add. reflexivity. }
  assert (Cy' : (this oy + this oy + this dh == this c)%Q).
  { rewrite <- Cy, !Qc_this_add. reflexivity. }
  unfold Qcle, Qclt in *. change (this 0%Qc) with 0%Q in *.
  rewrite ?Qc_this_add, ?Qc_this_opp, ?Qc_this_mul, ?Qc_this_of_Z in *.
  unfold inject_Z in *.
  apply (constrainCropBox_fixes_fin doc c); first [exact Hc | lra].
Qed.

Lemma adjustCropBoxToImage_valid_witness :
  let b := cropBox (store (adjustCropBoxToImage (desktopDocument 400) (withImage 10 500))) in
  constrainCropBox (desktopDocument 400) b = b.
Proof.
  apply (adjustCropBoxToImage_valid (desktopDocument 400) (withImage 10 500)
           (Q2Qc (inject_Z 10)) (Q2Qc (inject_Z 500)));
    reflexivity.
Defined.

End ValidMore.
